(** * The playground tab bar: active-file tracking and drag reordering

    A shallow embedding of the [PlaygroundTabBar] element (the variant that
    keeps the drag session as indices: [_draggableFileIndex],
    [_draggedFileIndex], [_targetFileIndex]).

    - JavaScript numbers that hold tab indices are integers; they are [Z]
      here, so that [index - 1] at index [0] is [-1] as in the source.
    - [number | undefined] is [option Z].
    - Pointer coordinates and bounding boxes are JavaScript numbers used
      as such: IEEE 754 doubles, here the primitive [float], on which
      [clientX < rect.left + rect.width / 2] is evaluated with the rounding
      of the machine.
    - The element's fields are a record that every handler takes and
      returns; the one command a handler can send to the project is
      returned next to the new state. *)

From Stdlib Require Import ZArith List String Bool Lia Permutation.
From Stdlib Require Import PrimFloat.
Import ListNotations.

Local Open Scope string_scope.
Local Open Scope Z_scope.

(** ** JavaScript values *)

(** Truthiness of an optional boolean property ([hidden?], [selected?]). *)
Definition truthy (b : option bool) : bool :=
  match b with
  | Some true => true
  | _ => false
  end.

(** Truthiness of a string: every string but the empty one. *)
Definition truthy_string (s : string) : bool :=
  match s with
  | EmptyString => false
  | String _ _ => true
  end.

(** Truthiness of [number | undefined] for integer values: [undefined] and
    [0] are falsy. *)
Definition truthy_index (i : option Z) : bool :=
  match i with
  | None => false
  | Some n => negb (n =? 0)
  end.

(** [a[i]]: [undefined] outside [0 .. a.length - 1]. *)
Definition item {A : Type} (a : list A) (i : Z) : option A :=
  if i <? 0 then None else nth_error a (Z.to_nat i).

Fixpoint findIndex_from {A : Type} (p : A -> bool) (a : list A) (k : Z) : Z :=
  match a with
  | [] => -1
  | x :: a' => if p x then k else findIndex_from p a' (k + 1)
  end.

(** [a.findIndex(p)]: the first index whose element satisfies [p], or [-1]. *)
Definition findIndex {A : Type} (p : A -> bool) (a : list A) : Z :=
  findIndex_from p a 0.

(** [a.length] as a JavaScript number. *)
Definition length_of {A : Type} (a : list A) : Z := Z.of_nat (List.length a).

(** ** Files of the project *)

Record PlaygroundFile : Type := {
  name : string;
  label : option string;
  hidden : option bool;
  selected : option bool
}.

Definition file (n : string) : PlaygroundFile :=
  {| name := n; label := None; hidden := None; selected := None |}.

Definition selected_file (n : string) : PlaygroundFile :=
  {| name := n; label := None; hidden := None; selected := Some true |}.

Definition hidden_file (n : string) : PlaygroundFile :=
  {| name := n; label := None; hidden := Some true; selected := None |}.

(** [(this._project?.files ?? []).filter(({ hidden }) => !hidden)], with the
    project's files (or [[]] without a project) as argument. *)
Definition _visibleFiles (files : list PlaygroundFile) : list PlaygroundFile :=
  filter (fun f => negb (truthy (hidden f))) files.

(** ** State of the element *)

Record PlaygroundTabBar : Type := {
  editableFileSystem : bool;
  _activeFileName : string;
  _activeFileIndex : Z;
  _draggableFileIndex : option Z;
  _draggedFileIndex : option Z;
  _targetFileIndex : option Z
}.

(** The element as constructed: the field initialisers of the class. *)
Definition new_tab_bar : PlaygroundTabBar :=
  {| editableFileSystem := false;
     _activeFileName := "";
     _activeFileIndex := 0;
     _draggableFileIndex := None;
     _draggedFileIndex := None;
     _targetFileIndex := None |}.

Definition set_activeFileName (this : PlaygroundTabBar) (v : string) :=
  {| editableFileSystem := editableFileSystem this;
     _activeFileName := v;
     _activeFileIndex := _activeFileIndex this;
     _draggableFileIndex := _draggableFileIndex this;
     _draggedFileIndex := _draggedFileIndex this;
     _targetFileIndex := _targetFileIndex this |}.

Definition set_activeFileIndex (this : PlaygroundTabBar) (v : Z) :=
  {| editableFileSystem := editableFileSystem this;
     _activeFileName := _activeFileName this;
     _activeFileIndex := v;
     _draggableFileIndex := _draggableFileIndex this;
     _draggedFileIndex := _draggedFileIndex this;
     _targetFileIndex := _targetFileIndex this |}.

Definition set_draggableFileIndex (this : PlaygroundTabBar) (v : option Z) :=
  {| editableFileSystem := editableFileSystem this;
     _activeFileName := _activeFileName this;
     _activeFileIndex := _activeFileIndex this;
     _draggableFileIndex := v;
     _draggedFileIndex := _draggedFileIndex this;
     _targetFileIndex := _targetFileIndex this |}.

Definition set_draggedFileIndex (this : PlaygroundTabBar) (v : option Z) :=
  {| editableFileSystem := editableFileSystem this;
     _activeFileName := _activeFileName this;
     _activeFileIndex := _activeFileIndex this;
     _draggableFileIndex := _draggableFileIndex this;
     _draggedFileIndex := v;
     _targetFileIndex := _targetFileIndex this |}.

Definition set_targetFileIndex (this : PlaygroundTabBar) (v : option Z) :=
  {| editableFileSystem := editableFileSystem this;
     _activeFileName := _activeFileName this;
     _activeFileIndex := _activeFileIndex this;
     _draggableFileIndex := _draggableFileIndex this;
     _draggedFileIndex := _draggedFileIndex this;
     _targetFileIndex := v |}.

(** ** Active-file tracking *)

(** The loop of [_setNewActiveFile]:
    [for (let i = this._activeFileIndex; i >= 0; i--)], returning the name
    of the first [file] with [file && !file.hidden]. The argument [n] is
    [i + 1]: the loop runs while [i >= 0], that is while [n] is a
    successor, and [i--] is the recursive call on the predecessor. *)
Fixpoint walk_left (visible : list PlaygroundFile) (n : nat) : option string :=
  match n with
  | O => None
  | S i =>
      match nth_error visible i with
      | Some f => if negb (truthy (hidden f)) then Some (name f)
                  else walk_left visible i
      | None => walk_left visible i
      end
  end.

Definition _setNewActiveFile (files : list PlaygroundFile)
    (this : PlaygroundTabBar) : PlaygroundTabBar :=
  let same_name :=
    if truthy_string (_activeFileName this) then
      let index :=
        findIndex (fun f => (name f =? _activeFileName this)%string)
                  (_visibleFiles files) in
      if index >=? 0 then Some (set_activeFileIndex this index) else None
    else None in
  match same_name with
  | Some this' => this'
  | None =>
      match walk_left (_visibleFiles files)
                      (Z.to_nat (_activeFileIndex this + 1)) with
      | Some n => set_activeFileName this n
      | None => set_activeFileName (set_activeFileIndex this 0) ""
      end
  end.

(** [this._visibleFiles.find((file) => file.selected)?.name] *)
Definition fileToSelect (files : list PlaygroundFile) : option string :=
  option_map name (find (fun f => truthy (selected f)) (_visibleFiles files)).

Definition _handleFilesChanged (files : list PlaygroundFile)
    (newProjectLoaded : bool) (this : PlaygroundTabBar) : PlaygroundTabBar :=
  let this1 :=
    if newProjectLoaded then
      match fileToSelect files with
      | Some n => set_activeFileName this n
      | None => this
      end
    else this in
  _setNewActiveFile files this1.

(** The tab of a [tabchange] event: its [data-filename] and its [index]. *)
Record PlaygroundInternalTab : Type := {
  dataset_filename : string;
  index : Z
}.

(** [_onTabchange(event)], with [event.detail.tab] as argument. *)
Definition _onTabchange (tab : option PlaygroundInternalTab)
    (this : PlaygroundTabBar) : PlaygroundTabBar :=
  match tab with
  | None => this
  | Some tab =>
      if negb (dataset_filename tab =? _activeFileName this)%string then
        set_activeFileIndex (set_activeFileName this (dataset_filename tab))
                            (index tab)
      else this
  end.

(** [_updateActive(filename)] (the menu's closing is not state of ours). *)
Definition _updateActive (files : list PlaygroundFile) (filename : string)
    (this : PlaygroundTabBar) : PlaygroundTabBar :=
  _setNewActiveFile files (set_activeFileName this filename).

Definition _onNewFile (filename : string) (this : PlaygroundTabBar) :=
  set_activeFileName this filename.

(** ** Drag reordering *)

(** What the handlers read of a [DragEvent]: whether [event.target] is the
    tab itself ([target instanceof PlaygroundInternalTab]; it is a child of
    the tab otherwise, such as one of its icon buttons), the pointer's
    [clientX], and [left] and [width] of the tab's bounding rectangle. *)
Record DragEvent : Type := {
  target_is_tab : bool;
  clientX : float;
  rect_left : float;
  rect_width : float
}.

(** [event.clientX < rect.left + rect.width / 2], on doubles: the division,
    the sum and the comparison are those of IEEE 754, as JavaScript has
    them. *)
Definition left_of_midpoint (event : DragEvent) : bool :=
  PrimFloat.ltb (clientX event)
                (rect_left event + rect_width event / 2)%float.

(** [number === (number | undefined)] *)
Definition same_index (i : Z) (o : option Z) : bool :=
  match o with
  | Some j => i =? j
  | None => false
  end.

(** The command the element sends to its project. *)
Inductive ProjectCommand : Type :=
| moveFileAfter (draggedIndex targetIndex : Z).

Definition _originTabDragStart (index : Z) (this : PlaygroundTabBar) :=
  set_draggedFileIndex this (Some index).

Definition _originTabDragEnd (this : PlaygroundTabBar) :=
  set_draggedFileIndex this None.

(** The value of [dropLeft] in [_targetTabDragOver]: [true] unless the
    event's target is the tab and the pointer is not left of its middle. *)
Definition dropLeft (event : DragEvent) : bool :=
  if target_is_tab event then left_of_midpoint event else true.

Definition _targetTabDragOver (index : Z) (event : DragEvent)
    (this : PlaygroundTabBar) : PlaygroundTabBar :=
  if same_index index (_draggedFileIndex this) then
    set_targetFileIndex this None
  else if dropLeft event then
    if negb (same_index (index - 1) (_draggedFileIndex this)) then
      set_targetFileIndex this (Some (index - 1))
    else set_targetFileIndex this None
  else
    if negb (same_index (index + 1) (_draggedFileIndex this)) then
      set_targetFileIndex this (Some index)
    else set_targetFileIndex this None.

(** [_targetTabDragLeave(event)], with
    [event.target.contains(event.relatedTarget)] as argument. *)
Definition _targetTabDragLeave (target_contains_related : bool)
    (this : PlaygroundTabBar) : PlaygroundTabBar :=
  if negb target_contains_related then set_targetFileIndex this None
  else this.

(** [_targetTabDrop(event)]: the new state and the commands sent to the
    project. Past the guard both indices are numbers; the last branch of
    the [match] is never taken. *)
Definition _targetTabDrop (this : PlaygroundTabBar)
    : PlaygroundTabBar * list ProjectCommand :=
  if negb (truthy_index (_draggedFileIndex this))
     || (negb (truthy_index (_targetFileIndex this))
         && negb (same_index 0 (_targetFileIndex this)))
  then (this, [])
  else
    match _draggedFileIndex this, _targetFileIndex this with
    | Some d, Some t => (set_targetFileIndex this None, [moveFileAfter d t])
    | _, _ => (this, [])
    end.

Definition _dragIndicatorMouseOver (index : Z) (this : PlaygroundTabBar) :=
  set_draggableFileIndex this (Some index).

Definition _dragIndicatorMouseOut (this : PlaygroundTabBar) :=
  set_draggableFileIndex this None.

(** ** What [render] gives each tab *)

Definition pinned : string := "index.html".

(** The [draggable] attribute of the tab at [index]. *)
Definition draggable (files : list PlaygroundFile) (this : PlaygroundTabBar)
    (index : Z) : bool :=
  editableFileSystem this
  && same_index index (_draggableFileIndex this)
  && (length_of (_visibleFiles files) >? 2).

(** Whether the tab of the file [name], at any index, gets the drag
    indicator, the only element with the hover handlers. *)
Definition has_drag_indicator (files : list PlaygroundFile)
    (this : PlaygroundTabBar) (name : string) : bool :=
  editableFileSystem this
  && negb (name =? pinned)%string
  && (length_of (_visibleFiles files) >? 2).

(** ** The project *)

Definition remove_at {A : Type} (i : nat) (a : list A) : list A :=
  firstn i a ++ skipn (S i) a.

Definition insert_at {A : Type} (i : nat) (x : A) (a : list A) : list A :=
  firstn i a ++ x :: skipn i a.

(** Modelled from the spec: [moveFileAfter] is a method of the project
    element, whose code the tab bar does not contain. The spec gives it as
    "move the file at [draggedIndex]
    to immediately after the file at [targetIndex]", on an ordered sequence
    that stays consistent, and gives one run of it: moving index 3 after
    index 0 in [index.html, a.js, b.js, c.js] yields
    [index.html, c.js, a.js, b.js]. Without a file at [draggedIndex] the
    sequence is left as it is. The file is taken out and put back right
    after the one that was at [targetIndex], whose position has moved one
    down when it was right of the file taken out. *)
Definition project_moveFileAfter {A : Type} (draggedIndex targetIndex : Z)
    (files : list A) : list A :=
  match item files draggedIndex with
  | None => files
  | Some f =>
      let rest := remove_at (Z.to_nat draggedIndex) files in
      let position :=
        if targetIndex <? draggedIndex then targetIndex + 1 else targetIndex in
      insert_at (Z.to_nat position) f rest
  end.

Definition run_command (c : ProjectCommand) (files : list PlaygroundFile) :=
  match c with
  | moveFileAfter d t => project_moveFileAfter d t files
  end.

(** ** The element with its project, driven by pointer events *)

Record Playground : Type := {
  project_files : list PlaygroundFile;
  tab_bar : PlaygroundTabBar;
  sent : list ProjectCommand
}.

(** The events of [render]'s listeners, with the index [render] bound in
    each listener. *)
Inductive PointerEvent : Type :=
| mouseover (index : Z)
| mouseout (index : Z)
| dragstart (index : Z)
| dragend (index : Z)
| dragover (index : Z) (event : DragEvent)
| dragleave (index : Z) (target_contains_related : bool)
| drop (index : Z).

Definition event_index (e : PointerEvent) : Z :=
  match e with
  | mouseover i | mouseout i | dragstart i | dragend i
  | dragover i _ | dragleave i _ | drop i => i
  end.

(** An event can reach its listener when the tab at its index is rendered,
    for the hover events when that tab has the drag indicator, and for
    [dragstart] when that tab is draggable. *)
Definition can_fire (p : Playground) (e : PointerEvent) : bool :=
  match item (_visibleFiles (project_files p)) (event_index e) with
  | None => false
  | Some f =>
      match e with
      | mouseover _ | mouseout _ =>
          has_drag_indicator (project_files p) (tab_bar p) (name f)
      | dragstart i => draggable (project_files p) (tab_bar p) i
      | _ => true
      end
  end.

(** One event: its listener runs; a command sent by [drop] is carried out
    by the project, which then notifies [filesChanged] (not a new project). *)
Definition handle (p : Playground) (e : PointerEvent) : Playground :=
  let keep this :=
    {| project_files := project_files p; tab_bar := this; sent := sent p |} in
  match e with
  | mouseover i => keep (_dragIndicatorMouseOver i (tab_bar p))
  | mouseout _ => keep (_dragIndicatorMouseOut (tab_bar p))
  | dragstart i => keep (_originTabDragStart i (tab_bar p))
  | dragend _ => keep (_originTabDragEnd (tab_bar p))
  | dragover i event => keep (_targetTabDragOver i event (tab_bar p))
  | dragleave _ c => keep (_targetTabDragLeave c (tab_bar p))
  | drop _ =>
      let (this, commands) := _targetTabDrop (tab_bar p) in
      match commands with
      | [] => keep this
      | _ =>
          let files := fold_left (fun fs c => run_command c fs) commands
                                 (project_files p) in
          {| project_files := files;
             tab_bar := _handleFilesChanged files false this;
             sent := sent p ++ commands |}
      end
  end.

Fixpoint run (p : Playground) (events : list PointerEvent)
    : option Playground :=
  match events with
  | [] => Some p
  | e :: events' =>
      if can_fire p e then run (handle p e) events' else None
  end.

(** ** Vocabulary of the properties *)

(** The file at [i] is the nearest one at or left of [from]. *)
Definition nearest_left (visible : list PlaygroundFile) (from i : Z)
    (f : PlaygroundFile) : Prop :=
  i <= from /\ item visible i = Some f
  /\ forall k, i < k <= from -> item visible k = None.

(** No file at or left of [from]. *)
Definition none_left (visible : list PlaygroundFile) (from : Z) : Prop :=
  forall i, i <= from -> item visible i = None.

(** The test of [findIndex] in [_setNewActiveFile]: [file.name === n]. *)
Definition named (n : string) (f : PlaygroundFile) : bool :=
  (name f =? n)%string.

(** The recovery takes the walk to the left when the active name is empty
    or names no visible file. *)
Definition falls_back (files : list PlaygroundFile) (this : PlaygroundTabBar)
    : Prop :=
  _activeFileName this = ""
  \/ ~ In (_activeFileName this) (map name (_visibleFiles files)).

(** A tab bar whose active file is [n], remembered at index [i]. *)
Definition active (n : string) (i : Z) : PlaygroundTabBar :=
  set_activeFileIndex (set_activeFileName new_tab_bar n) i.

(** Scenario A: the visible files [index.html, a.js, b.js], and what is left
    of them once the project has deleted a.js. *)
Definition scenario_A : list PlaygroundFile :=
  [file "index.html"; file "a.js"; file "b.js"].

Definition scenario_A_deleted : list PlaygroundFile :=
  [file "index.html"; file "b.js"].

(** A tab bar in the middle of a drag, with its dragged and target index;
    the hover index is still that of the tab the drag started on. *)
Definition dragging (d t : option Z) : PlaygroundTabBar :=
  {| editableFileSystem := true;
     _activeFileName := "index.html";
     _activeFileIndex := 0;
     _draggableFileIndex := d;
     _draggedFileIndex := d;
     _targetFileIndex := t |}.

(** The target that a drag-over of the tab at [index] proposes: the index
    before the tab when the pointer is left of the tab's middle (by the
    handler's test on doubles, [left_of_midpoint]), the tab's own index
    otherwise; when the event's target is not the tab but an element inside
    it, the index before the tab wherever the pointer is. *)
Definition proposal (index : Z) (event : DragEvent) : Z :=
  if target_is_tab event then
    if left_of_midpoint event then index - 1 else index
  else index - 1.

(** The pointer is over the right half of a tab, on one of the tab's
    buttons. *)
Definition over_child_right : DragEvent :=
  {| target_is_tab := false; clientX := 90; rect_left := 0; rect_width := 100 |}.

(** The pointer is over the tab itself, in its left half and in its right
    half. *)
Definition over_tab_left : DragEvent :=
  {| target_is_tab := true; clientX := 10; rect_left := 0; rect_width := 100 |}.

Definition over_tab_right : DragEvent :=
  {| target_is_tab := true; clientX := 90; rect_left := 0; rect_width := 100 |}.

(** The hover index and the dragged index, when set, are indices of visible
    files other than index.html. *)
Definition off_pinned (p : Playground) : Prop :=
  forall i,
    _draggableFileIndex (tab_bar p) = Some i
    \/ _draggedFileIndex (tab_bar p) = Some i ->
    exists f, item (_visibleFiles (project_files p)) i = Some f
              /\ name f <> pinned.

(** Every event of the run leaves the project's files as they are. *)
Fixpoint files_stay (p : Playground) (events : list PointerEvent) : Prop :=
  match events with
  | [] => True
  | e :: events' =>
      project_files (handle p e) = project_files p
      /\ files_stay (handle p e) events'
  end.

(** A project whose second file is index.html, in a tab bar that allows
    reordering. *)
Definition pinned_second : Playground :=
  {| project_files :=
       [file "a.js"; file "index.html"; file "b.js"; file "c.js"];
     tab_bar :=
       {| editableFileSystem := true;
          _activeFileName := "a.js";
          _activeFileIndex := 0;
          _draggableFileIndex := None;
          _draggedFileIndex := None;
          _targetFileIndex := None |};
     sent := [] |}.

(** The same after b.js has been dragged from index 2 to the left of
    index.html: the hover index is still 2, where index.html is now. *)
Definition pinned_third : Playground :=
  {| project_files :=
       [file "a.js"; file "b.js"; file "index.html"; file "c.js"];
     tab_bar :=
       {| editableFileSystem := true;
          _activeFileName := "a.js";
          _activeFileIndex := 0;
          _draggableFileIndex := Some 2;
          _draggedFileIndex := None;
          _targetFileIndex := None |};
     sent := [moveFileAfter 2 0] |}.

(** ** More of [render], and the update cycle *)

(** The [.active] property that [render] gives the tab of the file [f]. *)
Definition tab_active (this : PlaygroundTabBar) (f : PlaygroundFile) : bool :=
  (name f =? _activeFileName this)%string.

(** The first argument of a command: the index of the file to move. *)
Definition draggedIndex_of (c : ProjectCommand) : Z :=
  match c with
  | moveFileAfter d _ => d
  end.

Module Lifecycle.

(** A project as the tab bar sees it: the object itself, told from other
    projects by [project_id], and its [files]. *)
Record PlaygroundProject : Type := {
  project_id : nat;
  files : list PlaygroundFile
}.

(** The editor as the tab bar sees it: its [filename] property. *)
Record PlaygroundFileEditor : Type := {
  filename : option string
}.

(** The tab bar with the two elements it is connected to. *)
Record Host : Type := {
  fields : PlaygroundTabBar;
  _project : option PlaygroundProject;
  _editor : option PlaygroundFileEditor
}.

(** What [update] reads of its [changedProperties]: [has('_project')],
    [get('_project')], and [has('_activeFileName')] with the value it has
    when the second [if] of [update] evaluates it. *)
Record PropertyValues : Type := {
  has_project : bool;
  get_project : option PlaygroundProject;
  has_activeFileName : bool
}.

(** The calls [update] makes on projects, for the ['filesChanged'] event and
    the one listener [_onProjectFilesChanged]. *)
Inductive ListenerCall : Type :=
| removeEventListener (project : nat)
| addEventListener (project : nat).

(** [this._project?.files ?? []] *)
Definition project_files_of (this : Host) : list PlaygroundFile :=
  match _project this with
  | Some p => files p
  | None => []
  end.

(** [update(changedProperties)], up to the call of [super.update]: the new
    state of the tab bar and of its editor, and the listener calls made. *)
Definition update (changedProperties : PropertyValues) (this : Host)
    : Host * list ListenerCall :=
  let removed :=
    match get_project changedProperties with
    | Some oldProject => [removeEventListener (project_id oldProject)]
    | None => []
    end in
  let (this1, calls) :=
    if has_project changedProperties then
      match _project this with
      | Some p =>
          ({| fields := _handleFilesChanged (files p) true (fields this);
              _project := _project this;
              _editor := _editor this |},
           (removed ++ [addEventListener (project_id p)])%list)
      | None => (this, removed)
      end
    else (this, []) in
  match has_activeFileName changedProperties, _editor this1 with
  | true, Some _ =>
      ({| fields := _setNewActiveFile (project_files_of this1) (fields this1);
          _project := _project this1;
          _editor :=
            Some {| filename := Some (_activeFileName (fields this1)) |} |},
       calls)
  | _, _ => (this1, calls)
  end.

(** The projects on which the listener is registered, after a list of
    calls: a listener that is registered already is not added again. *)
Fixpoint listening_after (calls : list ListenerCall) (listening : list nat)
    : list nat :=
  match calls with
  | [] => listening
  | removeEventListener p :: calls' =>
      listening_after calls' (filter (fun q => negb (q =? p)%nat) listening)
  | addEventListener p :: calls' =>
      listening_after calls'
        (if existsb (Nat.eqb p) listening then listening else p :: listening)
  end.

(** The project, if any, as the list of the projects listened to. *)
Definition only (project : option PlaygroundProject) : list nat :=
  match project with
  | Some p => [project_id p]
  | None => []
  end.

End Lifecycle.

(** ** The variant with drop zones

    The other variant of the element keeps the dragged element itself and
    marks the place of the drop in the document: [render] puts a
    [<div class="drop-zone">] after every tab, and the handlers add and
    remove the class [active] on these. *)

Module DropZones.

(** The elements of the tab strip that a drag event can have as its target.
    The tabs and the drop zones alternate as children of the strip; the two
    buttons are the element children of a tab that has them; the parts of
    an icon (its [svg] and [path]) have no element beside them. *)
Inductive Element : Type :=
| tab (i : nat)
| drop_zone (i : nat)
| drag_indicator (i : nat)
| menu_button (i : nat)
| icon_part (i : nat).

Definition Element_eqb (a b : Element) : bool :=
  match a, b with
  | tab i, tab j | drop_zone i, drop_zone j
  | drag_indicator i, drag_indicator j | menu_button i, menu_button j
  | icon_part i, icon_part j => (i =? j)%nat
  | _, _ => false
  end.

(** [a === b] for [HTMLElement | null]. *)
Definition same_element (a b : option Element) : bool :=
  match a, b with
  | Some x, Some y => Element_eqb x y
  | None, None => true
  | _, _ => false
  end.

(** [previousElementSibling], and [nextElementSibling] in a strip of
    [tabs] tabs. *)
Definition previousElementSibling (e : Element) : option Element :=
  match e with
  | tab O => None
  | tab (S i) => Some (drop_zone i)
  | drop_zone i => Some (tab i)
  | drag_indicator _ => None
  | menu_button i => Some (drag_indicator i)
  | icon_part _ => None
  end.

Definition nextElementSibling (tabs : nat) (e : Element) : option Element :=
  match e with
  | tab i => Some (drop_zone i)
  | drop_zone i => if (S i <? tabs)%nat then Some (tab (S i)) else None
  | drag_indicator i => Some (menu_button i)
  | menu_button _ => None
  | icon_part _ => None
  end.

(** [e.dataset["filename"]]: [render] sets [data-filename] on the tabs. *)
Definition dataset_filename (visible : list PlaygroundFile) (e : Element)
    : option string :=
  match e with
  | tab i => option_map name (nth_error visible i)
  | _ => None
  end.

(** The fields of this variant's drag session, and the elements whose
    [classList] contains [active]. *)
Record PlaygroundTabBar : Type := {
  _dragged : option Element;
  _dragoverCount : Z;
  active_class : list Element
}.

Definition new_tab_bar : PlaygroundTabBar :=
  {| _dragged := None; _dragoverCount := 0; active_class := [] |}.

Definition classList_contains (this : PlaygroundTabBar) (e : Element) : bool :=
  existsb (Element_eqb e) (active_class this).

Definition classList_add (e : Element) (this : PlaygroundTabBar) :=
  {| _dragged := _dragged this;
     _dragoverCount := _dragoverCount this;
     active_class :=
       if classList_contains this e then active_class this
       else e :: active_class this |}.

Definition classList_remove (e : Element) (this : PlaygroundTabBar) :=
  {| _dragged := _dragged this;
     _dragoverCount := _dragoverCount this;
     active_class :=
       filter (fun x => negb (Element_eqb e x)) (active_class this) |}.

(** [element?.classList.remove("active")] *)
Definition classList_remove_opt (e : option Element) (this : PlaygroundTabBar) :=
  match e with
  | Some x => classList_remove x this
  | None => this
  end.

(** [querySelector(".drop-zone.active")]: the first drop zone, in the order
    of the document, with the class [active]; [from] counts the zones that
    have been passed. *)
Fixpoint first_active_zone (this : PlaygroundTabBar) (zones from : nat)
    : option nat :=
  match zones with
  | O => None
  | S zones' =>
      if classList_contains this (drop_zone from) then Some from
      else first_active_zone this zones' (S from)
  end.

Definition querySelector_active_zone (tabs : nat) (this : PlaygroundTabBar)
    : option nat :=
  first_active_zone this tabs 0.

(** What the handlers read of a drag event: its target, the pointer's
    [clientX], and [left] and [width] of the target's bounding rectangle. *)
Record DragEvent : Type := {
  target : Element;
  clientX : float;
  rect_left : float;
  rect_width : float
}.

(** The command of this variant names the two files. *)
Inductive ProjectCommand : Type :=
| moveFileAfter (draggedFileName targetFileName : option string).

(** A handler returns, or a property is read on [null]. *)
Inductive Completion (A : Type) : Type :=
| returns (a : A)
| TypeError.

Arguments returns {A} a.
Arguments TypeError {A}.

Definition _originTabDragStart (event : DragEvent) (this : PlaygroundTabBar) :=
  {| _dragged := Some (target event);
     _dragoverCount := _dragoverCount this;
     active_class := active_class this |}.

Definition _originTabDragEnd (this : PlaygroundTabBar) :=
  {| _dragged := None;
     _dragoverCount := _dragoverCount this;
     active_class := active_class this |}.

(** The listener that [render] binds to [dragend],
    [() => this._originTabDragEnd]: it evaluates to the method and does not
    call it. *)
Definition dragend_listener (this : PlaygroundTabBar) : PlaygroundTabBar :=
  this.

Definition _incrementDragoverCount (this : PlaygroundTabBar) :=
  {| _dragged := _dragged this;
     _dragoverCount := _dragoverCount this + 1;
     active_class := active_class this |}.

Definition _decrementDragoverCount (this : PlaygroundTabBar) :=
  {| _dragged := _dragged this;
     _dragoverCount := _dragoverCount this - 1;
     active_class := active_class this |}.

Definition _targetTabDragOver (tabs : nat) (event : DragEvent)
    (this : PlaygroundTabBar) : PlaygroundTabBar :=
  if same_element (Some (target event)) (_dragged this) then this
  else
    let dropLeft :=
      PrimFloat.ltb (clientX event)
                    (rect_left event + rect_width event / 2)%float in
    let leftDropZone := previousElementSibling (target event) in
    let rightDropZone := nextElementSibling tabs (target event) in
    let this1 :=
      if dropLeft then
        let this0 := classList_remove_opt rightDropZone this in
        match leftDropZone with
        | Some zone =>
            if negb (same_element (previousElementSibling zone)
                                  (_dragged this))
            then classList_add zone this0 else this0
        | None => this0
        end
      else
        let this0 := classList_remove_opt leftDropZone this in
        match rightDropZone with
        | Some zone =>
            if negb (same_element (nextElementSibling tabs zone)
                                  (_dragged this))
            then classList_add zone this0 else this0
        | None => this0
        end in
    _incrementDragoverCount this1.

Definition _targetTabDragLeave (tabs : nat) (this : PlaygroundTabBar) :=
  let this1 := _decrementDragoverCount this in
  if _dragoverCount this1 =? 0 then
    classList_remove_opt
      (option_map drop_zone (querySelector_active_zone tabs this1)) this1
  else this1.

(** The two drops end alike, from the drop zone on. *)
Definition drop_on_zone (visible : list PlaygroundFile) (has_project : bool)
    (dropZone : Element) (this : PlaygroundTabBar)
    : Completion (PlaygroundTabBar * list ProjectCommand) :=
  match _dragged this with
  | None => TypeError
  | Some dragged =>
      match previousElementSibling dropZone with
      | None => TypeError
      | Some before =>
          returns
            (classList_remove dropZone this,
             if has_project then
               [moveFileAfter (dataset_filename visible dragged)
                              (dataset_filename visible before)]
             else [])
      end
  end.

Definition _targetTabDrop (visible : list PlaygroundFile) (has_project : bool)
    (this : PlaygroundTabBar)
    : Completion (PlaygroundTabBar * list ProjectCommand) :=
  match querySelector_active_zone (List.length visible) this with
  | None => returns (this, [])
  | Some zone => drop_on_zone visible has_project (drop_zone zone) this
  end.

Definition _childDragOver (this : PlaygroundTabBar) : PlaygroundTabBar :=
  match _dragged this with
  | None => this
  | Some _ => _incrementDragoverCount this
  end.

Definition _childDragLeave (this : PlaygroundTabBar) : PlaygroundTabBar :=
  match _dragged this with
  | None => this
  | Some _ => _decrementDragoverCount this
  end.

Definition _dropZoneDragOver (tabs : nat) (event : DragEvent)
    (this : PlaygroundTabBar) : PlaygroundTabBar :=
  let dropZone := target event in
  if same_element (previousElementSibling dropZone) (_dragged this)
     || same_element (nextElementSibling tabs dropZone) (_dragged this)
  then this
  else classList_add dropZone this.

Definition _dropZoneDragLeave (event : DragEvent) (this : PlaygroundTabBar) :=
  classList_remove (target event) this.

Definition _dropZoneDrop (visible : list PlaygroundFile) (has_project : bool)
    (event : DragEvent) (this : PlaygroundTabBar)
    : Completion (PlaygroundTabBar * list ProjectCommand) :=
  drop_on_zone visible has_project (target event) this.

(** The drag events and, for each, the listeners of [render] that it
    reaches on its way up from its target: those of a button, when the
    target is a button or a part of its icon, and then those of the tab;
    those of the drop zone, when the target is one. *)
Inductive DragEventType : Type :=
| dragstart | dragend | dragover | dragleave.

Definition in_button (e : Element) : bool :=
  match e with
  | drag_indicator _ | menu_button _ | icon_part _ => true
  | _ => false
  end.

Definition dispatch (tabs : nat) (type : DragEventType) (event : DragEvent)
    (this : PlaygroundTabBar) : PlaygroundTabBar :=
  match target event with
  | drop_zone _ =>
      match type with
      | dragover => _dropZoneDragOver tabs event this
      | dragleave => _dropZoneDragLeave event this
      | _ => this
      end
  | _ =>
      match type with
      | dragstart => _originTabDragStart event this
      | dragend => dragend_listener this
      | dragover =>
          _targetTabDragOver tabs event
            (if in_button (target event) then _childDragOver this else this)
      | dragleave =>
          _targetTabDragLeave tabs
            (if in_button (target event) then _childDragLeave this else this)
      end
  end.

Fixpoint dispatch_all (tabs : nat) (events : list (DragEventType * DragEvent))
    (this : PlaygroundTabBar) : PlaygroundTabBar :=
  match events with
  | [] => this
  | (type, event) :: events' =>
      dispatch_all tabs events' (dispatch tabs type event this)
  end.

(** The pointer over the left half of the tab at [i], and over the drop
    zone after it. *)
Definition at_tab (i : nat) : DragEvent :=
  {| target := tab i; clientX := 10; rect_left := 0; rect_width := 100 |}.

Definition at_zone (i : nat) : DragEvent :=
  {| target := drop_zone i; clientX := 2; rect_left := 0; rect_width := 8 |}.

End DropZones.

(** * Properties *)

(** ** Arrays *)

Lemma item_nth_error {A : Type} (a : list A) (i : nat) :
  item a (Z.of_nat i) = nth_error a i.
Proof.
  unfold item. destruct (Z.ltb_spec (Z.of_nat i) 0); [lia|].
  now rewrite Nat2Z.id.
Qed.

Lemma item_negative {A : Type} (a : list A) (i : Z) : i < 0 -> item a i = None.
Proof. intros H. unfold item. now apply Z.ltb_lt in H as ->. Qed.

Lemma item_some_range {A : Type} (a : list A) (i : Z) (x : A) :
  item a i = Some x -> 0 <= i < length_of a.
Proof.
  unfold item, length_of. destruct (Z.ltb_spec i 0); [discriminate|].
  intros E. assert (Z.to_nat i < List.length a)%nat.
  { apply nth_error_Some. congruence. }
  lia.
Qed.

Lemma item_in {A : Type} (a : list A) (i : Z) (x : A) :
  item a i = Some x -> In x a.
Proof.
  unfold item. destruct (i <? 0); [discriminate|]. apply nth_error_In.
Qed.

Lemma findIndex_from_absent {A : Type} (p : A -> bool) (a : list A) :
  (forall x, In x a -> p x = false) -> forall k, findIndex_from p a k = -1.
Proof.
  induction a as [|x a IH]; intros H k; simpl; [reflexivity|].
  rewrite (H x (or_introl eq_refl)). apply IH. intros y Hy. apply H. now right.
Qed.

(** When some element satisfies [p], [findIndex_from] stops at the first
    one: [n] elements that fail [p] come before it. *)
Lemma findIndex_from_present {A : Type} (p : A -> bool) (a : list A) :
  (exists x, In x a /\ p x = true) ->
  forall k, exists (n : nat) (x : A),
    findIndex_from p a k = k + Z.of_nat n
    /\ nth_error a n = Some x /\ p x = true
    /\ forall m y, (m < n)%nat -> nth_error a m = Some y -> p y = false.
Proof.
  induction a as [|x a IH]; intros [y [Hin Hp]] k; [destruct Hin|].
  simpl. destruct (p x) eqn:Hx.
  - exists O, x. repeat split; auto; [lia|]. intros m z Hm. lia.
  - destruct Hin as [->|Hin]; [congruence|].
    destruct (IH (ex_intro _ y (conj Hin Hp)) (k + 1)) as (n & z & E & Hn & Hz & Hm).
    exists (S n), z. repeat split; auto; [lia|].
    intros [|m] w Hlt Hw; simpl in Hw; [congruence|].
    apply (Hm m w); [lia|assumption].
Qed.

Lemma findIndex_present {A : Type} (p : A -> bool) (a : list A) :
  (exists x, In x a /\ p x = true) ->
  exists x, 0 <= findIndex p a
    /\ item a (findIndex p a) = Some x /\ p x = true
    /\ forall j y, j < findIndex p a -> item a j = Some y -> p y = false.
Proof.
  intros H. destruct (findIndex_from_present p a H 0) as (n & x & E & Hn & Hx & Hm).
  unfold findIndex. rewrite E. exists x. repeat split; auto; [lia| |].
  - now rewrite Z.add_0_l, item_nth_error.
  - intros j y Hj Hy. pose proof (item_some_range _ _ _ Hy) as R.
    apply (Hm (Z.to_nat j) y); [lia|].
    rewrite <- item_nth_error, Z2Nat.id; [assumption|lia].
Qed.

(** ** The visible files *)

Lemma visible_not_hidden (files : list PlaygroundFile) (f : PlaygroundFile) :
  In f (_visibleFiles files) -> negb (truthy (hidden f)) = true.
Proof. unfold _visibleFiles. intros H. now apply filter_In in H. Qed.

Lemma visible_Permutation (files files' : list PlaygroundFile) :
  Permutation files files' ->
  Permutation (_visibleFiles files) (_visibleFiles files').
Proof.
  unfold _visibleFiles. induction 1; simpl.
  - constructor.
  - destruct (negb (truthy (hidden x))); auto.
  - destruct (negb (truthy (hidden x))), (negb (truthy (hidden y)));
      auto using perm_swap.
  - eapply perm_trans; eassumption.
Qed.

(** ** The walk to the left *)

Lemma walk_left_finds (visible : list PlaygroundFile) :
  (forall f, In f visible -> negb (truthy (hidden f)) = true) ->
  forall (n i : nat) (f : PlaygroundFile),
    (i < n)%nat -> nth_error visible i = Some f ->
    (forall k, (i < k < n)%nat -> nth_error visible k = None) ->
    walk_left visible n = Some (name f).
Proof.
  intros Hvis. induction n as [|n IH]; intros i f Hi Hf Hgap; [lia|].
  simpl. destruct (Nat.eq_dec i n) as [->|Hne].
  - rewrite Hf, (Hvis f (nth_error_In _ _ Hf)). reflexivity.
  - rewrite (Hgap n) by lia. apply (IH i f); [lia|assumption|].
    intros k Hk. apply Hgap. lia.
Qed.

Lemma walk_left_empty (visible : list PlaygroundFile) (n : nat) :
  (forall k, (k < n)%nat -> nth_error visible k = None) ->
  walk_left visible n = None.
Proof.
  induction n as [|n IH]; intros H; [reflexivity|].
  simpl. rewrite (H n) by lia. apply IH. intros k Hk. apply H. lia.
Qed.

Lemma walk_left_nearest (files : list PlaygroundFile) (from i : Z)
    (f : PlaygroundFile) :
  nearest_left (_visibleFiles files) from i f ->
  walk_left (_visibleFiles files) (Z.to_nat (from + 1)) = Some (name f).
Proof.
  intros (Hle & Hf & Hgap). pose proof (item_some_range _ _ _ Hf) as R.
  apply (walk_left_finds _ (visible_not_hidden files) _ (Z.to_nat i) f).
  - lia.
  - rewrite <- item_nth_error, Z2Nat.id; [assumption|lia].
  - intros k Hk. rewrite <- item_nth_error. apply Hgap. lia.
Qed.

Lemma walk_left_none_left (visible : list PlaygroundFile) (from : Z) :
  none_left visible from ->
  walk_left visible (Z.to_nat (from + 1)) = None.
Proof.
  intros H. apply walk_left_empty. intros k Hk.
  rewrite <- item_nth_error. apply H. lia.
Qed.

(** There is a nearest file to the left, or there is none at all. *)
Lemma nearest_left_or_none (visible : list PlaygroundFile) (from : Z) :
  (exists i f, nearest_left visible from i f) \/ none_left visible from.
Proof.
  destruct (Z.ltb_spec from 0) as [Hneg|Hpos].
  { right. intros i Hi. apply item_negative. lia. }
  destruct visible as [|f0 visible'] eqn:Ev.
  { right. intros i Hi. unfold item. destruct (i <? 0); [reflexivity|].
    now destruct (Z.to_nat i). }
  left. rewrite <- Ev.
  assert (Hlen : 0 < length_of visible) by (subst; unfold length_of; simpl; lia).
  set (i := Z.min from (length_of visible - 1)).
  destruct (nth_error visible (Z.to_nat i)) as [f|] eqn:Ef.
  - exists i, f. repeat split; [lia| |].
    + rewrite <- (Z2Nat.id i) by lia. now rewrite item_nth_error.
    + intros k Hk. unfold item. destruct (Z.ltb_spec k 0); [reflexivity|].
      apply nth_error_None. unfold length_of in *. lia.
  - apply nth_error_None in Ef. unfold length_of in *. lia.
Qed.

(** The last file of the sequence is the nearest one left of any index at
    or past it. *)
Lemma nearest_left_last (visible : list PlaygroundFile) (from i : Z)
    (f : PlaygroundFile) :
  item visible i = Some f -> i <= from -> length_of visible <= i + 1 ->
  nearest_left visible from i f.
Proof.
  intros Hf Hle Hlen. repeat split; [assumption..|].
  intros k Hk. unfold item. destruct (Z.ltb_spec k 0); [reflexivity|].
  apply nth_error_None. unfold length_of in Hlen. lia.
Qed.

Lemma none_left_nil (from : Z) : none_left [] from.
Proof.
  intros i _. unfold item. destruct (i <? 0); [reflexivity|].
  now destruct (Z.to_nat i).
Qed.

(** ** Recovery of the active file *)

Lemma truthy_string_false (s : string) : truthy_string s = false <-> s = "".
Proof. destruct s; simpl; split; congruence. Qed.

Lemma setNewActiveFile_same_name (files : list PlaygroundFile)
    (this : PlaygroundTabBar) :
  _activeFileName this <> "" ->
  In (_activeFileName this) (map name (_visibleFiles files)) ->
  _setNewActiveFile files this
  = set_activeFileIndex this
      (findIndex (named (_activeFileName this)) (_visibleFiles files))
  /\ exists f,
       item (_visibleFiles files)
            (findIndex (named (_activeFileName this)) (_visibleFiles files))
       = Some f
       /\ name f = _activeFileName this
       /\ forall j g, j < findIndex (named (_activeFileName this))
                                    (_visibleFiles files) ->
                      item (_visibleFiles files) j = Some g ->
                      name g <> _activeFileName this.
Proof.
  intros Hne Hin. apply in_map_iff in Hin as (f0 & Hname & Hf0).
  destruct (findIndex_present (named (_activeFileName this))
              (_visibleFiles files)) as (f & Hpos & Hf & Hp & Hfirst).
  { exists f0. split; [assumption|]. unfold named. now apply String.eqb_eq. }
  split.
  - unfold _setNewActiveFile.
    destruct (truthy_string (_activeFileName this)) eqn:T.
    + fold (named (_activeFileName this)).
      destruct (Z.geb_spec
                  (findIndex (named (_activeFileName this)) (_visibleFiles files))
                  0); [reflexivity|lia].
    + apply truthy_string_false in T. contradiction.
  - exists f. repeat split; [assumption|now apply String.eqb_eq|].
    intros j g Hj Hg. apply String.eqb_neq. apply (Hfirst j g Hj Hg).
Qed.

Lemma setNewActiveFile_falls_back (files : list PlaygroundFile)
    (this : PlaygroundTabBar) :
  falls_back files this ->
  _setNewActiveFile files this
  = match walk_left (_visibleFiles files)
                    (Z.to_nat (_activeFileIndex this + 1)) with
    | Some n => set_activeFileName this n
    | None => set_activeFileName (set_activeFileIndex this 0) ""
    end.
Proof.
  intros H. unfold _setNewActiveFile.
  destruct (truthy_string (_activeFileName this)) eqn:T; [|reflexivity].
  destruct H as [H|H]; [rewrite H in T; discriminate|].
  unfold findIndex. rewrite findIndex_from_absent; [reflexivity|].
  intros f Hf. apply String.eqb_neq. intros E. apply H.
  rewrite <- E. now apply in_map.
Qed.

(** C2, as stated, fails: with visible files [index.html, a.js, b.js] and
    active file a.js at index 1, after a.js is deleted and the recovery has
    run, the active file is not index.html. *)
Lemma scenario_A_not_index_html :
  _setNewActiveFile scenario_A (active "a.js" 1) = active "a.js" 1
  /\ _activeFileName
       (_handleFilesChanged scenario_A_deleted false (active "a.js" 1))
     <> "index.html".
Proof. split; [reflexivity|vm_compute; discriminate]. Qed.

(** C2, amended: in that scenario the recovery stays on index 1 and makes
    b.js, the file that has moved to index 1, the active file. *)
Theorem scenario_A_stays_on_index :
  _visibleFiles scenario_A_deleted = [file "index.html"; file "b.js"]
  /\ _handleFilesChanged scenario_A_deleted false (active "a.js" 1)
     = active "b.js" 1.
Proof. split; reflexivity. Qed.

(** C3: when the active name is that of no visible file, the recovery makes
    the nearest visible file at an index at most the active index the
    active file; without such a file the active name becomes empty and the
    active index 0. The recovery is a total function, and one of the two
    cases always applies. *)
Theorem recovery_selects_nearest_left (files : list PlaygroundFile)
    (this : PlaygroundTabBar) :
  ~ In (_activeFileName this) (map name (_visibleFiles files)) ->
  (forall i f,
      nearest_left (_visibleFiles files) (_activeFileIndex this) i f ->
      _activeFileName (_setNewActiveFile files this) = name f)
  /\ (none_left (_visibleFiles files) (_activeFileIndex this) ->
      _activeFileName (_setNewActiveFile files this) = ""
      /\ _activeFileIndex (_setNewActiveFile files this) = 0)
  /\ ((exists i f,
          nearest_left (_visibleFiles files) (_activeFileIndex this) i f)
      \/ none_left (_visibleFiles files) (_activeFileIndex this)).
Proof.
  intros Habsent.
  rewrite (setNewActiveFile_falls_back files this (or_intror Habsent)).
  split; [|split].
  - intros i f Hn. now rewrite (walk_left_nearest files _ i f Hn).
  - intros Hn. rewrite (walk_left_none_left _ _ Hn). split; reflexivity.
  - apply nearest_left_or_none.
Qed.

Lemma recovery_selects_nearest_left_witness :
  _activeFileName
    (_setNewActiveFile [file "index.html"; hidden_file "h.js"; file "b.js"]
                       (active "a.js" 4))
  = "b.js"
  /\ (_activeFileName
        (_setNewActiveFile [hidden_file "h.js"] (active "a.js" 4)) = ""
      /\ _activeFileIndex
           (_setNewActiveFile [hidden_file "h.js"] (active "a.js" 4)) = 0).
Proof.
  split.
  - apply (proj1 (recovery_selects_nearest_left
                    [file "index.html"; hidden_file "h.js"; file "b.js"]
                    (active "a.js" 4)
                    ltac:(vm_compute; intuition discriminate))
                 1 (file "b.js")).
    apply nearest_left_last; [reflexivity|simpl; lia|vm_compute; discriminate].
  - exact (proj1 (proj2 (recovery_selects_nearest_left
                           [hidden_file "h.js"] (active "a.js" 4)
                           ltac:(vm_compute; intuition)))
                 (none_left_nil 4)).
Defined.

(** C10: when the recovery takes the walk to the left and the walk selects
    the file at index [i], the only field assigned is the active name: the
    active index keeps its value, also when it is not [i]. *)
Theorem fallback_keeps_the_index (files : list PlaygroundFile)
    (this : PlaygroundTabBar) (i : Z) (f : PlaygroundFile) :
  falls_back files this ->
  nearest_left (_visibleFiles files) (_activeFileIndex this) i f ->
  _setNewActiveFile files this = set_activeFileName this (name f)
  /\ _activeFileIndex (_setNewActiveFile files this) = _activeFileIndex this.
Proof.
  intros Hfb Hn. rewrite (setNewActiveFile_falls_back files this Hfb).
  rewrite (walk_left_nearest files _ i f Hn). split; reflexivity.
Qed.

(** The stored index 5 points past b.js, selected at index 1. *)
Lemma fallback_keeps_the_index_witness :
  _setNewActiveFile [file "index.html"; file "b.js"] (active "c.js" 5)
  = active "b.js" 5
  /\ _activeFileIndex
       (_setNewActiveFile [file "index.html"; file "b.js"] (active "c.js" 5))
     = 5.
Proof.
  apply (fallback_keeps_the_index [file "index.html"; file "b.js"]
           (active "c.js" 5) 1 (file "b.js")).
  - right. vm_compute. intuition discriminate.
  - apply nearest_left_last; [reflexivity|simpl; lia|vm_compute; discriminate].
Defined.

(** What "until a later recovery" amounts to: a second recovery on the same
    files finds the selected name and brings the index back onto it, at [i]
    or at an earlier file of the same name. *)
Lemma later_recovery_finds_the_index (files : list PlaygroundFile)
    (this : PlaygroundTabBar) (i : Z) (f : PlaygroundFile) :
  falls_back files this ->
  nearest_left (_visibleFiles files) (_activeFileIndex this) i f ->
  name f <> "" ->
  let this'' := _setNewActiveFile files (_setNewActiveFile files this) in
  _activeFileName this'' = name f
  /\ 0 <= _activeFileIndex this'' <= i
  /\ option_map name (item (_visibleFiles files) (_activeFileIndex this''))
     = Some (name f).
Proof.
  intros Hfb Hn Hname. rewrite (setNewActiveFile_falls_back files this Hfb).
  rewrite (walk_left_nearest files _ i f Hn).
  destruct Hn as (_ & Hf & _).
  destruct (setNewActiveFile_same_name files (set_activeFileName this (name f)))
    as (E & g & Hg & Hgname & Hfirst);
    [exact Hname|exact (in_map name _ _ (item_in _ _ _ Hf))|].
  simpl _activeFileName in *. intros this''. subst this''. rewrite E.
  simpl. split; [reflexivity|]. split.
  - pose proof (item_some_range _ _ _ Hg) as R. split; [lia|].
    destruct (Z_le_gt_dec (findIndex (named (name f)) (_visibleFiles files)) i)
      as [Hle|Hgt]; [exact Hle|].
    exfalso. apply (Hfirst i f); [lia|assumption|reflexivity].
  - rewrite Hg. simpl. now rewrite Hgname.
Qed.

(** ** Loading a project *)

(** C6, as stated, fails: on load, the visible file flagged selected has the
    empty name, which the recovery reads as no active file; the walk to the
    left makes x.js the active file instead. *)
Lemma selected_empty_name_not_active :
  find (fun f => truthy (selected f))
       (_visibleFiles [file "x.js"; selected_file ""])
  = Some (selected_file "")
  /\ _activeFileName
       (_handleFilesChanged [file "x.js"; selected_file ""] true new_tab_bar)
     <> name (selected_file "").
Proof. split; [reflexivity|vm_compute; discriminate]. Qed.

(** C6, amended: on a [filesChanged] with [projectLoaded], the first visible
    file flagged selected, when its name is not empty, becomes the active
    file: the active name is its name and the active index is the first
    index of that name in the visible sequence. *)
Theorem selected_file_becomes_active (files : list PlaygroundFile)
    (this : PlaygroundTabBar) (f : PlaygroundFile) :
  find (fun f => truthy (selected f)) (_visibleFiles files) = Some f ->
  name f <> "" ->
  _activeFileName (_handleFilesChanged files true this) = name f
  /\ exists g,
       item (_visibleFiles files)
            (_activeFileIndex (_handleFilesChanged files true this)) = Some g
       /\ name g = name f.
Proof.
  intros Hfind Hname. unfold _handleFilesChanged, fileToSelect.
  rewrite Hfind. simpl option_map. cbv iota.
  apply find_some in Hfind as [Hin _].
  destruct (setNewActiveFile_same_name files (set_activeFileName this (name f)))
    as (E & g & Hg & Hgname & _);
    [exact Hname|exact (in_map name _ _ Hin)|].
  simpl _activeFileName in *. rewrite E. split; [reflexivity|].
  exists g. split; assumption.
Qed.

(** Scenario C: index.html, then a.js flagged selected. *)
Lemma selected_file_becomes_active_witness :
  _activeFileName
    (_handleFilesChanged [file "index.html"; selected_file "a.js"] true
                         new_tab_bar)
  = "a.js".
Proof.
  apply (selected_file_becomes_active
           [file "index.html"; selected_file "a.js"] new_tab_bar
           (selected_file "a.js")).
  - reflexivity.
  - simpl. discriminate.
Defined.

(** ** Choosing a tab *)

(** C9: a [tabchange] whose tab has the active file's name changes neither
    the active name nor the active index, whatever index the tab reports. *)
Theorem tabchange_same_name_changes_nothing (tab : PlaygroundInternalTab)
    (this : PlaygroundTabBar) :
  dataset_filename tab = _activeFileName this ->
  _onTabchange (Some tab) this = this.
Proof.
  intros E. unfold _onTabchange. rewrite E, String.eqb_refl. reflexivity.
Qed.

(** The tab reports index 0 while the stored index is 3; 3 stays. *)
Lemma tabchange_same_name_changes_nothing_witness :
  _onTabchange (Some {| dataset_filename := "a.js"; index := 0 |})
               (active "a.js" 3)
  = active "a.js" 3.
Proof.
  apply (tabchange_same_name_changes_nothing
           {| dataset_filename := "a.js"; index := 0 |} (active "a.js" 3)).
  reflexivity.
Defined.

(** ** The drag session *)

Lemma same_index_true (i : Z) (o : option Z) :
  same_index i o = true <-> o = Some i.
Proof.
  destruct o as [j|]; simpl; [|split; discriminate].
  rewrite Z.eqb_eq. split; congruence.
Qed.

Lemma same_index_some (i j : Z) : same_index i (Some j) = (i =? j).
Proof. reflexivity. Qed.

(** Both guards of [_targetTabDrop] pass exactly when the dragged index is a
    number other than 0 and the target index is a number. *)
Lemma targetTabDrop_cases (this : PlaygroundTabBar) :
  _targetTabDrop this
  = match _draggedFileIndex this, _targetFileIndex this with
    | Some d, Some t =>
        if d =? 0 then (this, [])
        else (set_targetFileIndex this None, [moveFileAfter d t])
    | _, _ => (this, [])
    end.
Proof.
  unfold _targetTabDrop.
  destruct (_draggedFileIndex this) as [d|], (_targetFileIndex this) as [t|];
    simpl; try reflexivity.
  - destruct (d =? 0); simpl; [reflexivity|].
    destruct (Z.eqb_spec t 0) as [->|Hne]; simpl; [reflexivity|].
    destruct (Z.eqb_spec 0 t); [congruence|reflexivity].
  - now destruct (d =? 0).
Qed.

(** C1, as stated, fails: with dragged index 3 and target index 0 the drop
    sends its command, but it does not clear the dragged index, so not all
    of the drag session's state is cleared. *)
Lemma drop_keeps_dragged_index :
  ~ (snd (_targetTabDrop (dragging (Some 3) (Some 0))) = [moveFileAfter 3 0]
     /\ _draggedFileIndex (fst (_targetTabDrop (dragging (Some 3) (Some 0))))
        = None
     /\ _targetFileIndex (fst (_targetTabDrop (dragging (Some 3) (Some 0))))
        = None).
Proof. vm_compute. intros (_ & H & _). discriminate H. Qed.

(** The guard on the dragged index is a truthiness test: the drop of the tab
    dragged from index 0 sends no command. *)
Lemma drop_of_index_0_sends_nothing (t : option Z) :
  _targetTabDrop (dragging (Some 0) t) = (dragging (Some 0) t, []).
Proof. rewrite targetTabDrop_cases. now destruct t. Qed.

(** C1, amended: a drop without a dragged index or without a target index
    changes nothing and sends nothing; a drop with a dragged index other
    than 0 and a target index (0 included) sends exactly one
    [moveFileAfter] of the two and clears the target index only: the dragged
    index keeps its value, and it is the [dragend] listener that clears it. *)
Theorem drop_sends_one_command (this : PlaygroundTabBar) :
  (_draggedFileIndex this = None \/ _targetFileIndex this = None ->
   _targetTabDrop this = (this, []))
  /\ (forall d t,
        _draggedFileIndex this = Some d -> d <> 0 ->
        _targetFileIndex this = Some t ->
        _targetTabDrop this
        = (set_targetFileIndex this None, [moveFileAfter d t])
        /\ _targetFileIndex (fst (_targetTabDrop this)) = None
        /\ _draggedFileIndex (fst (_targetTabDrop this)) = Some d)
  /\ _draggedFileIndex (_originTabDragEnd this) = None.
Proof.
  rewrite targetTabDrop_cases. split; [|split].
  - intros [H|H]; rewrite H; [reflexivity|].
    now destruct (_draggedFileIndex this).
  - intros d t Hd Hne Ht. rewrite Hd, Ht.
    apply Z.eqb_neq in Hne as ->. simpl. auto.
  - reflexivity.
Qed.

Lemma drop_sends_one_command_witness :
  _targetTabDrop (dragging None (Some 2)) = (dragging None (Some 2), [])
  /\ _targetTabDrop (dragging (Some 3) (Some 0))
     = (dragging (Some 3) None, [moveFileAfter 3 0]).
Proof.
  split.
  - apply (proj1 (drop_sends_one_command (dragging None (Some 2)))).
    left. reflexivity.
  - apply (proj1 (proj2 (drop_sends_one_command (dragging (Some 3) (Some 0))))
                 3 0); [reflexivity|lia|reflexivity].
Defined.

(** C4, as stated, fails: in a drag from index 1, a drag-over of the tab at
    index 3 with the pointer right of the tab's middle, on an element
    inside the tab, does not set the target to 3: it sets it to 2. *)
Lemma dragover_child_right_targets_left :
  PrimFloat.ltb
    (rect_left over_child_right + rect_width over_child_right / 2)%float
    (clientX over_child_right)
  = true
  /\ _targetFileIndex
       (_targetTabDragOver 3 over_child_right (dragging (Some 1) None))
     <> Some 3
  /\ _targetFileIndex
       (_targetTabDragOver 3 over_child_right (dragging (Some 1) None))
     = Some 2.
Proof. split; [reflexivity|split; [vm_compute; discriminate|reflexivity]]. Qed.

(** C4, amended: in a drag from [source], a drag-over of the tab at [index]
    sets no target when [index] is [source]; otherwise it proposes
    [index - 1] when the event's target is the tab and the pointer is left
    of the tab's middle, [index] when the event's target is the tab and the
    pointer is not left of the middle, and [index - 1] when the event's
    target is an element inside the tab. Left of the middle is what the
    handler computes on doubles, [clientX < rect.left + rect.width / 2].
    A proposal equal to [source - 1] or to [source] clears the target, and
    a drop that follows sends no command; any other proposal becomes the
    target. Nothing but the target index changes. *)
Theorem dragover_sets_target (this : PlaygroundTabBar) (source index : Z)
    (event : DragEvent) :
  _draggedFileIndex this = Some source ->
  (index = source ->
   _targetFileIndex (_targetTabDragOver index event this) = None)
  /\ (proposal index event = source - 1 \/ proposal index event = source ->
      _targetFileIndex (_targetTabDragOver index event this) = None
      /\ snd (_targetTabDrop (_targetTabDragOver index event this)) = [])
  /\ (proposal index event <> source - 1 -> proposal index event <> source ->
      _targetFileIndex (_targetTabDragOver index event this)
      = Some (proposal index event))
  /\ _targetTabDragOver index event this
     = set_targetFileIndex this
         (_targetFileIndex (_targetTabDragOver index event this)).
Proof.
  intros Hd. unfold _targetTabDragOver, proposal, dropLeft.
  rewrite Hd, !same_index_some.
  split; [|split; [|split]].
  - intros ->. now rewrite Z.eqb_refl.
  - intros H. rewrite targetTabDrop_cases.
    destruct (Z.eqb_spec index source);
      destruct (target_is_tab event), (left_of_midpoint event);
      destruct (Z.eqb_spec (index - 1) source);
      destruct (Z.eqb_spec (index + 1) source);
      simpl; rewrite ?Hd; auto; lia.
  - intros H1 H2.
    destruct (Z.eqb_spec index source);
      destruct (target_is_tab event), (left_of_midpoint event);
      destruct (Z.eqb_spec (index - 1) source);
      destruct (Z.eqb_spec (index + 1) source);
      simpl; auto; lia.
  - destruct (index =? source);
      destruct (target_is_tab event), (left_of_midpoint event);
      destruct (index - 1 =? source); destruct (index + 1 =? source);
      reflexivity.
Qed.

(** A drag from index 3: over the left half of the tab at index 1 the
    target is 0; over the right half of the tab at index 2 the proposal 2
    is [source - 1] and clears the target; over the tab at index 3 itself
    no target is set. *)
Lemma dragover_sets_target_witness :
  _targetFileIndex (_targetTabDragOver 1 over_tab_left (dragging (Some 3) None))
  = Some 0
  /\ _targetFileIndex
       (_targetTabDragOver 2 over_tab_right (dragging (Some 3) (Some 0)))
     = None
  /\ _targetFileIndex
       (_targetTabDragOver 3 over_tab_left (dragging (Some 3) (Some 0)))
     = None.
Proof.
  split; [|split].
  - apply (proj1 (proj2 (proj2
             (dragover_sets_target (dragging (Some 3) None) 3 1 over_tab_left
                                   eq_refl))));
      vm_compute; discriminate.
  - apply (proj1 (proj2
             (dragover_sets_target (dragging (Some 3) (Some 0)) 3 2
                                   over_tab_right eq_refl))).
    left. reflexivity.
  - apply (proj1
             (dragover_sets_target (dragging (Some 3) (Some 0)) 3 3
                                   over_tab_left eq_refl)).
    reflexivity.
Defined.

(** C8: in a drag from an index of 2 or more, a drag-over of the tab at
    index 0 with the pointer left of the tab's middle sets the target index
    to -1, and the drop that follows passes both guards and sends
    [moveFileAfter] of the dragged index and -1. The pointer is left of the
    middle when the handler's test on doubles,
    [clientX < rect.left + rect.width / 2], is true. *)
Theorem dragover_first_tab_targets_minus_one (this : PlaygroundTabBar)
    (d : Z) (event : DragEvent) :
  _draggedFileIndex this = Some d -> 2 <= d ->
  left_of_midpoint event = true ->
  _targetFileIndex (_targetTabDragOver 0 event this) = Some (-1)
  /\ _targetTabDrop (_targetTabDragOver 0 event this)
     = (set_targetFileIndex this None, [moveFileAfter d (-1)]).
Proof.
  intros Hd Hge Hleft.
  assert (E : _targetTabDragOver 0 event this
              = set_targetFileIndex this (Some (-1))).
  { unfold _targetTabDragOver, dropLeft. rewrite Hd, Hleft, !same_index_some.
    destruct (Z.eqb_spec 0 d); [lia|].
    destruct (Z.eqb_spec (0 - 1) d); [lia|].
    now destruct (target_is_tab event). }
  rewrite E. split; [reflexivity|].
  rewrite targetTabDrop_cases. simpl. rewrite Hd.
  destruct (Z.eqb_spec d 0); [lia|reflexivity].
Qed.

Lemma dragover_first_tab_targets_minus_one_witness :
  _targetFileIndex
    (_targetTabDragOver 0 over_tab_left (dragging (Some 2) None))
  = Some (-1)
  /\ _targetTabDrop
       (_targetTabDragOver 0 over_tab_left (dragging (Some 2) None))
     = (dragging (Some 2) None, [moveFileAfter 2 (-1)]).
Proof.
  apply (dragover_first_tab_targets_minus_one
           (dragging (Some 2) None) 2 over_tab_left);
    [reflexivity|lia|reflexivity].
Defined.

(** The comparison rounds as the machine does. With the doubles nearest to
    50.1 and 129.8 as [left] and [width], [left + width / 2] is 115 though
    the exact sum is above it: a pointer at 115 is not left of the middle,
    and a drag-over of the tab at index 2 proposes 2. *)
Example midpoint_is_rounded :
  let event :=
    {| target_is_tab := true; clientX := 115;
       rect_left := 0x1.90ccccccccccdp+5;
       rect_width := 0x1.039999999999ap+7 |} in
  (rect_left event + rect_width event / 2)%float = 115%float
  /\ left_of_midpoint event = false
  /\ _targetFileIndex (_targetTabDragOver 2 event (dragging (Some 5) None))
     = Some 2.
Proof. repeat split. Qed.

(** ** Reordering by the project *)

Lemma remove_at_Permutation {A : Type} (a : list A) :
  forall (i : nat) (x : A),
    nth_error a i = Some x -> Permutation a (x :: remove_at i a).
Proof.
  unfold remove_at. induction a as [|y a IH]; intros [|i] x H;
    simpl in *; try discriminate.
  - injection H as ->. reflexivity.
  - eapply perm_trans; [apply perm_skip, (IH i x H)|]. apply perm_swap.
Qed.

Lemma insert_at_Permutation {A : Type} (i : nat) (x : A) (a : list A) :
  Permutation (x :: a) (insert_at i x a).
Proof.
  unfold insert_at. rewrite <- (firstn_skipn i a) at 1.
  apply Permutation_middle.
Qed.

(** The reorder keeps the files and changes only their order. *)
Lemma project_moveFileAfter_Permutation {A : Type} (d t : Z) (files : list A) :
  Permutation files (project_moveFileAfter d t files).
Proof.
  unfold project_moveFileAfter. destruct (item files d) as [f|] eqn:E;
    [|reflexivity].
  unfold item in E. destruct (d <? 0); [discriminate|].
  eapply perm_trans; [apply (remove_at_Permutation _ _ _ E)|].
  apply insert_at_Permutation.
Qed.

(** The run of the spec's scenario B. *)
Example scenario_B_order :
  project_moveFileAfter 3 0
    [file "index.html"; file "a.js"; file "b.js"; file "c.js"]
  = [file "index.html"; file "c.js"; file "a.js"; file "b.js"].
Proof. reflexivity. Qed.

(** A reorder followed by the recovery keeps an active file that is
    visible, and sets the active index to the first index of its name. *)
Lemma recovery_after_Permutation (files files' : list PlaygroundFile)
    (this : PlaygroundTabBar) :
  Permutation files files' ->
  _activeFileName this <> "" ->
  In (_activeFileName this) (map name (_visibleFiles files)) ->
  _activeFileName (_handleFilesChanged files' false this) = _activeFileName this
  /\ exists f,
       item (_visibleFiles files')
            (_activeFileIndex (_handleFilesChanged files' false this)) = Some f
       /\ name f = _activeFileName this
       /\ forall j g,
            j < _activeFileIndex (_handleFilesChanged files' false this) ->
            item (_visibleFiles files') j = Some g ->
            name g <> _activeFileName this.
Proof.
  intros Hperm Hne Hin. unfold _handleFilesChanged.
  assert (Hin' : In (_activeFileName this) (map name (_visibleFiles files'))).
  { eapply Permutation_in; [|exact Hin].
    apply Permutation_map, visible_Permutation, Hperm. }
  destruct (setNewActiveFile_same_name files' this Hne Hin') as (E & f & Hf).
  rewrite E. split; [reflexivity|]. exists f. exact Hf.
Qed.

(** C7: for a visible sequence, a source and a target index in it, with the
    target neither the source nor the index before it, after
    [moveFileAfter] and the recovery that the project's notification
    starts, the active file has the name it had, and the active index is
    the position of that name in the reordered visible sequence (no file
    left of it has the name). *)
Theorem reorder_keeps_active_name (files : list PlaygroundFile)
    (this : PlaygroundTabBar) (source target : Z) :
  0 <= source < length_of (_visibleFiles files) ->
  0 <= target < length_of (_visibleFiles files) ->
  source <> target -> target <> source - 1 ->
  _activeFileName this <> "" ->
  In (_activeFileName this) (map name (_visibleFiles files)) ->
  let files' := project_moveFileAfter source target files in
  let this' := _handleFilesChanged files' false this in
  _activeFileName this' = _activeFileName this
  /\ exists f,
       item (_visibleFiles files') (_activeFileIndex this') = Some f
       /\ name f = _activeFileName this
       /\ forall j g,
            j < _activeFileIndex this' ->
            item (_visibleFiles files') j = Some g ->
            name g <> _activeFileName this.
Proof.
  intros _ _ _ _ Hne Hin files' this'.
  apply (recovery_after_Permutation files files' this); [|assumption..].
  apply project_moveFileAfter_Permutation.
Qed.

(** Scenario B with b.js active: c.js moves from index 3 to right after
    index 0, and b.js, still active, is found at index 3 instead of 2. *)
Lemma reorder_keeps_active_name_witness :
  let files := [file "index.html"; file "a.js"; file "b.js"; file "c.js"] in
  let this' :=
    _handleFilesChanged (project_moveFileAfter 3 0 files) false
                        (active "b.js" 2) in
  _activeFileName this' = "b.js" /\ _activeFileIndex this' = 3.
Proof.
  intros files this'.
  destruct (reorder_keeps_active_name files (active "b.js" 2) 3 0)
    as [Hname _].
  - vm_compute. split; discriminate || reflexivity.
  - vm_compute. split; discriminate || reflexivity.
  - discriminate.
  - discriminate.
  - simpl. discriminate.
  - simpl. tauto.
  - split; [exact Hname|reflexivity].
Defined.

(** ** The pinned file *)

Lemma setNewActiveFile_drag_fields (files : list PlaygroundFile)
    (this : PlaygroundTabBar) :
  _draggableFileIndex (_setNewActiveFile files this) = _draggableFileIndex this
  /\ _draggedFileIndex (_setNewActiveFile files this) = _draggedFileIndex this
  /\ _targetFileIndex (_setNewActiveFile files this) = _targetFileIndex this.
Proof.
  unfold _setNewActiveFile.
  destruct (truthy_string (_activeFileName this));
    [destruct (findIndex _ _ >=? 0)|];
    try destruct (walk_left _ _); simpl; auto.
Qed.

Lemma handleFilesChanged_drag_fields (files : list PlaygroundFile)
    (loaded : bool) (this : PlaygroundTabBar) :
  _draggableFileIndex (_handleFilesChanged files loaded this)
  = _draggableFileIndex this
  /\ _draggedFileIndex (_handleFilesChanged files loaded this)
     = _draggedFileIndex this
  /\ _targetFileIndex (_handleFilesChanged files loaded this)
     = _targetFileIndex this.
Proof.
  unfold _handleFilesChanged.
  destruct loaded; [destruct (fileToSelect files) as [n|]|];
    try apply setNewActiveFile_drag_fields.
  destruct (setNewActiveFile_drag_fields files (set_activeFileName this n))
    as (-> & -> & ->).
  simpl. auto.
Qed.

Lemma targetTabDragOver_drag_fields (i : Z) (event : DragEvent)
    (this : PlaygroundTabBar) :
  _draggableFileIndex (_targetTabDragOver i event this)
  = _draggableFileIndex this
  /\ _draggedFileIndex (_targetTabDragOver i event this)
     = _draggedFileIndex this.
Proof.
  unfold _targetTabDragOver.
  destruct (same_index i _); [|destruct (dropLeft event)];
    try destruct (negb _); simpl; auto.
Qed.

Lemma targetTabDrop_drag_fields (this : PlaygroundTabBar) :
  _draggableFileIndex (fst (_targetTabDrop this)) = _draggableFileIndex this
  /\ _draggedFileIndex (fst (_targetTabDrop this)) = _draggedFileIndex this.
Proof.
  rewrite targetTabDrop_cases.
  destruct (_draggedFileIndex this) as [d|] eqn:Ed,
           (_targetFileIndex this) as [t|]; simpl; auto.
  destruct (d =? 0); simpl; auto.
Qed.

(** The hover and drag-start listeners are reached only on tabs that
    [render] gave the drag indicator or made draggable; so, as long as the
    project's files stay as they are, no event brings the hover index or
    the dragged index onto index.html. *)
Lemma handle_keeps_off_pinned (p : Playground) (e : PointerEvent) :
  can_fire p e = true ->
  project_files (handle p e) = project_files p ->
  off_pinned p -> off_pinned (handle p e).
Proof.
  unfold can_fire, off_pinned. intros Hfire Hfiles Hinv i.
  rewrite Hfiles. revert Hfire Hfiles.
  destruct (item (_visibleFiles (project_files p)) (event_index e))
    as [f|] eqn:Ef; [|discriminate].
  destruct e as [j|j|j|j|j event|j c|j]; simpl in Ef |- *; intros Hfire Hfiles.
  - intros [H|H]; [|apply Hinv; now right].
    injection H as <-. exists f. split; [assumption|].
    unfold has_drag_indicator in Hfire.
    apply andb_prop in Hfire as [Hfire _]. apply andb_prop in Hfire as [_ Hn].
    apply negb_true_iff, String.eqb_neq in Hn. exact Hn.
  - intros [H|H]; [discriminate|apply Hinv; now right].
  - intros [H|H]; [apply Hinv; now left|].
    injection H as <-. apply Hinv. left.
    unfold draggable in Hfire.
    apply andb_prop in Hfire as [Hfire _]. apply andb_prop in Hfire as [_ Hs].
    now apply same_index_true.
  - intros [H|H]; [apply Hinv; now left|discriminate].
  - destruct (targetTabDragOver_drag_fields j event (tab_bar p)) as [-> ->].
    apply Hinv.
  - unfold _targetTabDragLeave. destruct c; simpl; apply Hinv.
  - destruct (targetTabDrop_drag_fields (tab_bar p)) as [E1 E2].
    destruct (_targetTabDrop (tab_bar p)) as [this commands].
    simpl in E1, E2. destruct commands as [|c commands]; simpl.
    + rewrite E1, E2. apply Hinv.
    + destruct (handleFilesChanged_drag_fields
                  (fold_left (fun fs c0 => run_command c0 fs) commands
                             (run_command c (project_files p)))
                  false this) as (-> & -> & _).
      rewrite E1, E2. apply Hinv.
Qed.

(** A command of [drop] names the dragged index as its source. *)
Lemma drop_names_dragged_index (this : PlaygroundTabBar) (d t : Z) :
  In (moveFileAfter d t) (snd (_targetTabDrop this)) ->
  _draggedFileIndex this = Some d.
Proof.
  rewrite targetTabDrop_cases.
  destruct (_draggedFileIndex this) as [d'|], (_targetFileIndex this) as [t'|];
    simpl; try tauto.
  destruct (d' =? 0); simpl; [tauto|]. intros [H|[]]. congruence.
Qed.

Lemma run_keeps_off_pinned (events : list PointerEvent) :
  forall p p',
    run p events = Some p' -> files_stay p events ->
    off_pinned p -> off_pinned p'.
Proof.
  induction events as [|e events IH]; intros p p' Hrun Hstay Hinv; simpl in *.
  - injection Hrun as <-. exact Hinv.
  - destruct (can_fire p e) eqn:Hfire; [|discriminate].
    destruct Hstay as [Hfiles Hstay].
    apply (IH (handle p e) p' Hrun Hstay).
    now apply handle_keeps_off_pinned.
Qed.

(** With the hover and the dragged index off index.html, a drop does not
    name index.html as the source of its command. *)
Lemma drop_source_off_pinned (p : Playground) (d t : Z) :
  off_pinned p ->
  In (moveFileAfter d t) (snd (_targetTabDrop (tab_bar p))) ->
  exists f, item (_visibleFiles (project_files p)) d = Some f
            /\ name f <> pinned.
Proof.
  intros Hinv Hin. apply Hinv. right.
  now apply (drop_names_dragged_index _ d t).
Qed.

(** C5 fails on this run of pointer events. The pointer enters the drag
    indicator of b.js (index 2), b.js is dragged over the left half of
    index.html (index 1) and dropped: the project moves it to index 1 and
    index.html to index 2. No [mouseout] has come, the hover index is still
    2, and [render] makes the tab at index 2, index.html, draggable. Its
    drag then starts, and the drop on the right half of c.js sends
    [moveFileAfter 2 3], whose source index 2 is index.html. Both drops
    come after a drag-over that ran to its end, where the listener calls
    [preventDefault] and so allows the drop. *)
Theorem pinned_file_dragged_after_reorder :
  off_pinned pinned_second
  /\ run pinned_second
         [mouseover 2; dragstart 2; dragover 1 over_tab_left; drop 1; dragend 2]
     = Some pinned_third
  /\ option_map name (item (_visibleFiles (project_files pinned_third)) 2)
     = Some pinned
  /\ draggable (project_files pinned_third) (tab_bar pinned_third) 2 = true
  /\ option_map (fun p => (_draggedFileIndex (tab_bar p), project_files p))
       (run pinned_third [dragstart 2; dragover 3 over_tab_right])
     = Some (Some 2, project_files pinned_third)
  /\ option_map sent
       (run pinned_third [dragstart 2; dragover 3 over_tab_right; drop 3])
     = Some [moveFileAfter 2 0; moveFileAfter 2 3].
Proof.
  split.
  - intros i [H|H]; discriminate H.
  - repeat split; reflexivity.
Qed.

(** * Further properties *)

(** ** The recovery as a whole *)

Lemma walk_left_in (visible : list PlaygroundFile) (n : nat) (x : string) :
  walk_left visible n = Some x -> In x (map name visible).
Proof.
  induction n as [|n IH]; simpl; [discriminate|].
  destruct (nth_error visible n) as [f|] eqn:Ef; [|exact IH].
  destruct (negb (truthy (hidden f))); [|exact IH].
  intros [= <-]. apply in_map. exact (nth_error_In _ _ Ef).
Qed.

(** The two ways of the recovery: the active name is found, or the walk to
    the left is taken. *)
Lemma found_or_falls_back (files : list PlaygroundFile)
    (this : PlaygroundTabBar) :
  (_activeFileName this <> ""
   /\ In (_activeFileName this) (map name (_visibleFiles files)))
  \/ falls_back files this.
Proof.
  destruct (string_dec (_activeFileName this) "") as [E|Hne];
    [right; now left|].
  destruct (in_dec string_dec (_activeFileName this)
              (map name (_visibleFiles files))) as [Hin|Hout].
  - left. now split.
  - right. now right.
Qed.

Lemma set_activeFileIndex_same (this : PlaygroundTabBar) :
  set_activeFileIndex this (_activeFileIndex this) = this.
Proof. now destruct this. Qed.

Lemma set_activeFileName_same (this : PlaygroundTabBar) :
  set_activeFileName this (_activeFileName this) = this.
Proof. now destruct this. Qed.

(** [_handleFilesChanged] ends in a recovery from a state that differs from
    the given one in the active name at most. *)
Lemma handleFilesChanged_as_recovery (files : list PlaygroundFile)
    (loaded : bool) (this : PlaygroundTabBar) :
  exists n,
    _handleFilesChanged files loaded this
    = _setNewActiveFile files (set_activeFileName this n).
Proof.
  unfold _handleFilesChanged. destruct loaded.
  - destruct (fileToSelect files) as [n|].
    + now exists n.
    + exists (_activeFileName this). now rewrite set_activeFileName_same.
  - exists (_activeFileName this). now rewrite set_activeFileName_same.
Qed.

Lemma setNewActiveFile_visible_or_empty (files : list PlaygroundFile)
    (this : PlaygroundTabBar) :
  _activeFileName (_setNewActiveFile files this) = ""
  \/ In (_activeFileName (_setNewActiveFile files this))
        (map name (_visibleFiles files)).
Proof.
  destruct (found_or_falls_back files this) as [[Hne Hin]|Hfb].
  - destruct (setNewActiveFile_same_name files this Hne Hin) as [-> _].
    right. exact Hin.
  - rewrite (setNewActiveFile_falls_back files this Hfb).
    destruct (walk_left _ _) as [n|] eqn:W; simpl.
    + right. exact (walk_left_in _ _ _ W).
    + now left.
Qed.

(** X1: after any [filesChanged], of a new project or not, the active name
    is the empty string or the name of a visible file. *)
Theorem active_name_is_visible_or_empty (files : list PlaygroundFile)
    (loaded : bool) (this : PlaygroundTabBar) :
  _activeFileName (_handleFilesChanged files loaded this) = ""
  \/ In (_activeFileName (_handleFilesChanged files loaded this))
        (map name (_visibleFiles files)).
Proof.
  destruct (handleFilesChanged_as_recovery files loaded this) as [n ->].
  apply setNewActiveFile_visible_or_empty.
Qed.

Lemma setNewActiveFile_activates_a_tab (files : list PlaygroundFile)
    (this : PlaygroundTabBar) :
  0 <= _activeFileIndex this -> _visibleFiles files <> [] ->
  exists i f,
    item (_visibleFiles files) i = Some f
    /\ tab_active (_setNewActiveFile files this) f = true.
Proof.
  intros Hpos Hfiles. unfold tab_active.
  destruct (found_or_falls_back files this) as [[Hne Hin]|Hfb].
  - destruct (setNewActiveFile_same_name files this Hne Hin)
      as (-> & f & Hf & Hname & _).
    exists (findIndex (named (_activeFileName this)) (_visibleFiles files)), f.
    split; [exact Hf|]. simpl. now apply String.eqb_eq.
  - destruct (nearest_left_or_none (_visibleFiles files) (_activeFileIndex this))
      as [(i & f & Hn)|Hnone].
    + rewrite (setNewActiveFile_falls_back files this Hfb).
      rewrite (walk_left_nearest files _ i f Hn).
      exists i, f. split; [apply Hn|]. simpl. apply String.eqb_refl.
    + exfalso. specialize (Hnone 0 Hpos).
      destruct (_visibleFiles files); [congruence|discriminate].
Qed.

(** X2: when a file is visible and the stored index is not negative, a
    [filesChanged] leaves a tab that [render] marks active. *)
Theorem files_changed_activates_a_tab (files : list PlaygroundFile)
    (loaded : bool) (this : PlaygroundTabBar) :
  0 <= _activeFileIndex this -> _visibleFiles files <> [] ->
  exists i f,
    item (_visibleFiles files) i = Some f
    /\ tab_active (_handleFilesChanged files loaded this) f = true.
Proof.
  intros Hpos Hfiles.
  destruct (handleFilesChanged_as_recovery files loaded this) as [n ->].
  now apply setNewActiveFile_activates_a_tab.
Qed.

Lemma files_changed_activates_a_tab_witness :
  exists i f,
    item (_visibleFiles [hidden_file "h.js"; file "b.js"]) i = Some f
    /\ tab_active
         (_handleFilesChanged [hidden_file "h.js"; file "b.js"] false
                              (active "a.js" 7)) f
       = true.
Proof.
  apply (files_changed_activates_a_tab [hidden_file "h.js"; file "b.js"] false
           (active "a.js" 7)).
  - simpl. lia.
  - simpl. discriminate.
Defined.

(** The states the recovery leaves as they are. *)
Lemma setNewActiveFile_fixes_found (files : list PlaygroundFile)
    (this : PlaygroundTabBar) :
  _activeFileName this <> "" ->
  In (_activeFileName this) (map name (_visibleFiles files)) ->
  _activeFileIndex this
  = findIndex (named (_activeFileName this)) (_visibleFiles files) ->
  _setNewActiveFile files this = this.
Proof.
  intros Hne Hin Hidx.
  destruct (setNewActiveFile_same_name files this Hne Hin) as [-> _].
  rewrite <- Hidx. apply set_activeFileIndex_same.
Qed.

Lemma setNewActiveFile_fixes_walked (files : list PlaygroundFile)
    (this : PlaygroundTabBar) :
  falls_back files this ->
  walk_left (_visibleFiles files) (Z.to_nat (_activeFileIndex this + 1))
  = Some (_activeFileName this) ->
  _setNewActiveFile files this = this.
Proof.
  intros Hfb W. rewrite (setNewActiveFile_falls_back files this Hfb), W.
  apply set_activeFileName_same.
Qed.

(** After a walk to the left that selected [m], one more recovery reaches a
    state that the recovery leaves as it is. *)
Lemma setNewActiveFile_settles_after_walk (files : list PlaygroundFile)
    (this : PlaygroundTabBar) (m : string) :
  walk_left (_visibleFiles files) (Z.to_nat (_activeFileIndex this + 1))
  = Some m ->
  let this2 := _setNewActiveFile files (set_activeFileName this m) in
  _setNewActiveFile files this2 = this2.
Proof.
  intros W this2. subst this2. pose proof (walk_left_in _ _ _ W) as Hin.
  destruct (string_dec m "") as [->|Hne].
  - rewrite (setNewActiveFile_fixes_walked files (set_activeFileName this ""));
      [|now left|exact W].
    apply setNewActiveFile_fixes_walked; [now left|exact W].
  - destruct (setNewActiveFile_same_name files (set_activeFileName this m)
                Hne Hin) as [-> _].
    apply setNewActiveFile_fixes_found; [exact Hne|exact Hin|reflexivity].
Qed.

(** The walk from index 0 selects the first visible file, which is also
    the first file of its name. *)
Lemma walk_left_from_0 (visible : list PlaygroundFile) (m : string) :
  walk_left visible 1 = Some m -> findIndex (named m) visible = 0.
Proof.
  simpl. destruct visible as [|g visible]; simpl; [discriminate|].
  destruct (negb (truthy (hidden g))); [|discriminate].
  intros [= <-]. unfold findIndex, named. simpl.
  now rewrite String.eqb_refl.
Qed.

(** X3: the recovery settles: its third run in a row, on the same files,
    changes nothing any more. (Two runs can be needed: the first may take
    the walk to the left and leave the index where it was.) *)
Theorem recovery_settles (files : list PlaygroundFile)
    (this : PlaygroundTabBar) :
  let twice := _setNewActiveFile files (_setNewActiveFile files this) in
  _setNewActiveFile files twice = twice.
Proof.
  intros twice. subst twice.
  destruct (found_or_falls_back files this) as [[Hne Hin]|Hfb].
  - destruct (setNewActiveFile_same_name files this Hne Hin) as [E _].
    assert (Hfix : _setNewActiveFile files (_setNewActiveFile files this)
                   = _setNewActiveFile files this).
    { rewrite E.
      apply setNewActiveFile_fixes_found; [exact Hne|exact Hin|reflexivity]. }
    now rewrite !Hfix.
  - rewrite (setNewActiveFile_falls_back files this Hfb).
    destruct (walk_left _ _) as [m|] eqn:W.
    + now apply setNewActiveFile_settles_after_walk.
    + set (this1 := set_activeFileName (set_activeFileIndex this 0) "").
      assert (Hfb1 : falls_back files this1) by now left.
      rewrite (setNewActiveFile_falls_back files this1 Hfb1).
      destruct (walk_left (_visibleFiles files)
                  (Z.to_nat (_activeFileIndex this1 + 1))) as [m|] eqn:W1.
      * destruct (string_dec m "") as [->|Hne].
        -- apply setNewActiveFile_fixes_walked; [now left|exact W1].
        -- apply setNewActiveFile_fixes_found;
             [exact Hne|exact (walk_left_in _ _ _ W1)|].
           symmetry. exact (walk_left_from_0 _ _ W1).
      * change (set_activeFileName (set_activeFileIndex this1 0) "")
          with this1.
        rewrite (setNewActiveFile_falls_back files _ Hfb1), W1. reflexivity.
Qed.

(** X4: on a tab bar without an active file yet (empty name, index 0), a
    [filesChanged] with no visible file flagged selected makes the first
    visible file the active one; without a visible file nothing changes. *)
Theorem first_file_becomes_active (files : list PlaygroundFile)
    (loaded : bool) (this : PlaygroundTabBar) :
  fileToSelect files = None ->
  _activeFileName this = "" -> _activeFileIndex this = 0 ->
  _handleFilesChanged files loaded this
  = match _visibleFiles files with
    | [] => this
    | f :: _ => set_activeFileName this (name f)
    end.
Proof.
  intros Hsel Hname Hidx. unfold _handleFilesChanged. rewrite Hsel.
  replace (if loaded then this else this) with this by now destruct loaded.
  rewrite (setNewActiveFile_falls_back files this (or_introl Hname)), Hidx.
  pose proof (visible_not_hidden files) as Hvis.
  destruct (_visibleFiles files) as [|f visible]; simpl.
  - rewrite <- Hname, <- Hidx.
    now rewrite set_activeFileIndex_same, set_activeFileName_same.
  - now rewrite (Hvis f (or_introl eq_refl)).
Qed.

Lemma first_file_becomes_active_witness :
  _handleFilesChanged [hidden_file "h.js"; file "index.html"; file "a.js"]
                      true new_tab_bar
  = active "index.html" 0.
Proof.
  apply (first_file_becomes_active
           [hidden_file "h.js"; file "index.html"; file "a.js"] true
           new_tab_bar); reflexivity.
Defined.

(** X5: choosing, in the list of tabs, a name that is not empty and that a
    visible file has makes that name the active one and stores the first
    index at which a visible file has it. *)
Theorem updateActive_selects_the_file (files : list PlaygroundFile)
    (filename : string) (this : PlaygroundTabBar) :
  filename <> "" -> In filename (map name (_visibleFiles files)) ->
  _activeFileName (_updateActive files filename this) = filename
  /\ exists f,
       item (_visibleFiles files)
            (_activeFileIndex (_updateActive files filename this)) = Some f
       /\ name f = filename
       /\ forall j g,
            j < _activeFileIndex (_updateActive files filename this) ->
            item (_visibleFiles files) j = Some g -> name g <> filename.
Proof.
  intros Hne Hin. unfold _updateActive.
  destruct (setNewActiveFile_same_name files (set_activeFileName this filename)
              Hne Hin) as (-> & f & Hf).
  split; [reflexivity|]. exists f. exact Hf.
Qed.

Lemma updateActive_selects_the_file_witness :
  _activeFileName
    (_updateActive [file "index.html"; file "a.js"; file "b.js"] "b.js"
                   (active "index.html" 0))
  = "b.js"
  /\ _activeFileIndex
       (_updateActive [file "index.html"; file "a.js"; file "b.js"] "b.js"
                      (active "index.html" 0))
     = 2.
Proof.
  split.
  - apply (updateActive_selects_the_file
             [file "index.html"; file "a.js"; file "b.js"] "b.js"
             (active "index.html" 0)).
    + discriminate.
    + simpl. tauto.
  - reflexivity.
Defined.

(** ** Runs of pointer events *)

Lemma setNewActiveFile_editable (files : list PlaygroundFile)
    (this : PlaygroundTabBar) :
  editableFileSystem (_setNewActiveFile files this) = editableFileSystem this.
Proof.
  unfold _setNewActiveFile.
  destruct (truthy_string (_activeFileName this));
    [destruct (findIndex _ _ >=? 0)|];
    try destruct (walk_left _ _); reflexivity.
Qed.

(** What one event does, case by case, with the outcome of the drop's two
    guards spelled out. *)
Lemma handle_cases (p : Playground) (e : PointerEvent) :
  (project_files (handle p e) = project_files p
   /\ sent (handle p e) = sent p
   /\ editableFileSystem (tab_bar (handle p e))
      = editableFileSystem (tab_bar p)
   /\ _activeFileName (tab_bar (handle p e)) = _activeFileName (tab_bar p)
   /\ _activeFileIndex (tab_bar (handle p e)) = _activeFileIndex (tab_bar p)
   /\ (_draggedFileIndex (tab_bar (handle p e))
       = _draggedFileIndex (tab_bar p)
       \/ (exists i, e = dragstart i
                     /\ _draggedFileIndex (tab_bar (handle p e)) = Some i)
       \/ _draggedFileIndex (tab_bar (handle p e)) = None))
  \/ (exists i d t,
        e = drop i
        /\ _draggedFileIndex (tab_bar p) = Some d /\ d <> 0
        /\ _targetFileIndex (tab_bar p) = Some t
        /\ handle p e
           = {| project_files := project_moveFileAfter d t (project_files p);
                tab_bar :=
                  _handleFilesChanged
                    (project_moveFileAfter d t (project_files p)) false
                    (set_targetFileIndex (tab_bar p) None);
                sent := (sent p ++ [moveFileAfter d t])%list |}).
Proof.
  destruct e as [j|j|j|j|j event|j c|j]; simpl;
    try (left; repeat split; auto; fail).
  - left. repeat split; eauto.
  - left. unfold _targetTabDragOver.
    destruct (same_index j _); [|destruct (dropLeft event)];
      try destruct (negb _); simpl; repeat split; auto.
  - left. unfold _targetTabDragLeave. destruct c; simpl; repeat split; auto.
  - rewrite targetTabDrop_cases.
    destruct (_draggedFileIndex (tab_bar p)) as [d|] eqn:Ed;
      [destruct (_targetFileIndex (tab_bar p)) as [t|] eqn:Et;
       [destruct (Z.eqb_spec d 0)|]|];
      try (left; simpl; repeat split; auto; fail).
    right. exists j, d, t. repeat split; auto.
Qed.

(** X6: a tab bar that is not editable, or that shows two files or fewer,
    and in which no drag is under way, sends no command and sees no change
    of its files, whatever pointer events reach it. *)
Theorem reordering_disabled (events : list PointerEvent) :
  forall p p',
    run p events = Some p' ->
    _draggedFileIndex (tab_bar p) = None ->
    editableFileSystem (tab_bar p) = false
    \/ length_of (_visibleFiles (project_files p)) <= 2 ->
    sent p' = sent p /\ project_files p' = project_files p
    /\ _draggedFileIndex (tab_bar p') = None.
Proof.
  induction events as [|e events IH]; intros p p' Hrun Hd Hoff; simpl in Hrun.
  - injection Hrun as <-. auto.
  - destruct (can_fire p e) eqn:Hfire; [|discriminate].
    destruct (handle_cases p e)
      as [(Hf & Hs & He & _ & _ & Hdrag)|(i & d & t & _ & Hd' & _)];
      [|congruence].
    assert (Hd1 : _draggedFileIndex (tab_bar (handle p e)) = None).
    { destruct Hdrag as [Hdrag|[(i & -> & _)|Hdrag]]; [congruence| |exact Hdrag].
      exfalso. unfold can_fire in Hfire. simpl in Hfire.
      destruct (item _ i); [|discriminate]. unfold draggable in Hfire.
      destruct Hoff as [Hoff|Hoff].
      - rewrite Hoff in Hfire. discriminate.
      - destruct (Z.gtb_spec (length_of (_visibleFiles (project_files p))) 2);
          [lia|].
        rewrite !andb_false_r in Hfire. discriminate. }
    destruct (IH (handle p e) p' Hrun Hd1) as (Hs' & Hf' & Hd'').
    { rewrite He, Hf. exact Hoff. }
    rewrite Hs', Hf', Hs, Hf. auto.
Qed.

(** Two visible files: the drag-over sets a target, and still nothing is
    sent. *)
Lemma reordering_disabled_witness :
  let p := {| project_files := [file "index.html"; file "a.js"];
              tab_bar := dragging None None;
              sent := [] |} in
  let p' := {| project_files := [file "index.html"; file "a.js"];
               tab_bar := dragging None (Some (-1));
               sent := [] |} in
  run p [dragover 0 over_tab_left; drop 0; dragend 1] = Some p'
  /\ sent p' = sent p /\ project_files p' = project_files p
  /\ _draggedFileIndex (tab_bar p') = None.
Proof.
  intros p p'. split; [reflexivity|].
  apply (reordering_disabled
           [dragover 0 over_tab_left; drop 0; dragend 1] p p').
  - reflexivity.
  - reflexivity.
  - right. vm_compute. discriminate.
Defined.

(** X7: no run of pointer events makes the tab bar send a command that moves
    the file at index 0: the commands a run adds all have another index as
    their first argument. *)
Theorem index_0_is_never_moved (events : list PointerEvent) :
  forall p p',
    run p events = Some p' ->
    exists added,
      sent p' = (sent p ++ added)%list
      /\ Forall (fun c => draggedIndex_of c <> 0) added.
Proof.
  induction events as [|e events IH]; intros p p' Hrun; simpl in Hrun.
  - injection Hrun as <-. exists []. split; [now rewrite app_nil_r|constructor].
  - destruct (can_fire p e); [|discriminate].
    destruct (IH (handle p e) p' Hrun) as (added & -> & Hadded).
    destruct (handle_cases p e)
      as [(_ & -> & _)|(i & d & t & _ & _ & Hd & _ & ->)].
    + now exists added.
    + exists (moveFileAfter d t :: added). simpl sent.
      rewrite <- app_assoc. split; [reflexivity|]. now constructor.
Qed.

Lemma index_0_is_never_moved_witness :
  exists added,
    option_map sent
      (run {| project_files := [file "a.js"; file "b.js"; file "c.js"];
              tab_bar := dragging None None;
              sent := [] |}
           [mouseover 0; dragstart 0; dragover 2 over_tab_right; drop 2])
    = Some added
    /\ Forall (fun c => draggedIndex_of c <> 0) added.
Proof.
  destruct (index_0_is_never_moved
              [mouseover 0; dragstart 0; dragover 2 over_tab_right; drop 2]
              {| project_files := [file "a.js"; file "b.js"; file "c.js"];
                 tab_bar := dragging None None;
                 sent := [] |}
              {| project_files := [file "a.js"; file "b.js"; file "c.js"];
                 tab_bar := dragging (Some 0) (Some 2);
                 sent := [] |}
              eq_refl) as (added & E & Hadded).
  exists added. split; [|exact Hadded]. simpl in E. now rewrite <- E.
Defined.

(** X8: the pointer events never change which file is active: when the
    active name is not empty and a visible file has it, it is still the
    active name, and still the name of a visible file, after any run of
    pointer events, reorders by the project included. *)
Theorem pointer_events_keep_active_name (events : list PointerEvent) :
  forall p p',
    run p events = Some p' ->
    _activeFileName (tab_bar p) <> "" ->
    In (_activeFileName (tab_bar p))
       (map name (_visibleFiles (project_files p))) ->
    _activeFileName (tab_bar p') = _activeFileName (tab_bar p)
    /\ In (_activeFileName (tab_bar p'))
          (map name (_visibleFiles (project_files p'))).
Proof.
  induction events as [|e events IH]; intros p p' Hrun Hne Hin; simpl in Hrun.
  - injection Hrun as <-. auto.
  - destruct (can_fire p e); [|discriminate].
    assert (Hstep : _activeFileName (tab_bar (handle p e))
                    = _activeFileName (tab_bar p)
                    /\ In (_activeFileName (tab_bar p))
                          (map name (_visibleFiles (project_files (handle p e))))).
    { destruct (handle_cases p e)
        as [(-> & _ & _ & -> & _)|(i & d & t & _ & _ & _ & _ & ->)];
        [auto|].
      simpl.
      pose proof (project_moveFileAfter_Permutation d t (project_files p))
        as Hperm.
      destruct (recovery_after_Permutation (project_files p)
                  (project_moveFileAfter d t (project_files p))
                  (set_targetFileIndex (tab_bar p) None) Hperm Hne Hin)
        as [E _].
      split; [exact E|].
      eapply Permutation_in; [|exact Hin].
      apply Permutation_map, visible_Permutation, Hperm. }
    destruct Hstep as [E Hin'].
    destruct (IH (handle p e) p' Hrun) as [E' Hin''];
      [now rewrite E|now rewrite E|].
    split; [now rewrite E', E|exact Hin''].
Qed.

(** The first half of the run behind C5, with a.js active throughout. *)
Lemma pointer_events_keep_active_name_witness :
  run pinned_second
      [mouseover 2; dragstart 2; dragover 1 over_tab_left; drop 1; dragend 2]
  = Some pinned_third
  /\ _activeFileName (tab_bar pinned_third) = "a.js"
  /\ In (_activeFileName (tab_bar pinned_third))
        (map name (_visibleFiles (project_files pinned_third))).
Proof.
  split; [reflexivity|].
  apply (pointer_events_keep_active_name
           [mouseover 2; dragstart 2; dragover 1 over_tab_left; drop 1;
            dragend 2]
           pinned_second pinned_third).
  - reflexivity.
  - simpl. discriminate.
  - simpl. tauto.
Defined.

(** ** The drag session, one handler after another *)

(** X9: a second drop right after a drop sends nothing, whatever the first
    one did: a command is sent once. *)
Theorem second_drop_sends_nothing (this : PlaygroundTabBar) :
  snd (_targetTabDrop (fst (_targetTabDrop this))) = []
  /\ fst (_targetTabDrop (fst (_targetTabDrop this)))
     = fst (_targetTabDrop this).
Proof.
  rewrite (targetTabDrop_cases this).
  destruct (_draggedFileIndex this) as [d|] eqn:Ed;
    [destruct (_targetFileIndex this) as [t|] eqn:Et;
     [destruct (d =? 0) eqn:E0|]|];
    simpl; rewrite targetTabDrop_cases; simpl; rewrite ?Ed, ?Et, ?E0; auto.
Qed.

(** X10: a drop sends nothing once the drag has ended, and nothing after a
    drag-leave for which [event.target.contains(event.relatedTarget)] is
    false: that drag-leave clears the target index. A drag-leave for which
    the test is true changes nothing. The test is made on the target of the
    event, which is the tab or an element inside it. *)
Theorem cancelled_drag_sends_nothing (this : PlaygroundTabBar) :
  _targetTabDrop (_originTabDragEnd this) = (_originTabDragEnd this, [])
  /\ _targetFileIndex (_targetTabDragLeave false this) = None
  /\ _targetTabDrop (_targetTabDragLeave false this)
     = (_targetTabDragLeave false this, [])
  /\ _targetTabDragLeave true this = this.
Proof.
  split; [|split; [reflexivity|split]]; [| |reflexivity];
    rewrite targetTabDrop_cases; simpl.
  - reflexivity.
  - now destruct (_draggedFileIndex this).
Qed.

(** ** The update cycle *)

Lemma walk_left_none_no_files (files : list PlaygroundFile) (from : Z) :
  0 <= from ->
  walk_left (_visibleFiles files) (Z.to_nat (from + 1)) = None ->
  _visibleFiles files = [].
Proof.
  intros Hpos W.
  destruct (nearest_left_or_none (_visibleFiles files) from)
    as [(i & f & Hn)|Hnone].
  - rewrite (walk_left_nearest files from i f Hn) in W. discriminate.
  - specialize (Hnone 0 Hpos). now destruct (_visibleFiles files).
Qed.

(** With a stored index that is not negative, the first recovery decides
    the active name; a second one changes the index at most. *)
Lemma recovery_name_settles (files : list PlaygroundFile)
    (this : PlaygroundTabBar) :
  0 <= _activeFileIndex this ->
  _activeFileName (_setNewActiveFile files (_setNewActiveFile files this))
  = _activeFileName (_setNewActiveFile files this).
Proof.
  intros Hpos.
  destruct (found_or_falls_back files this) as [[Hne Hin]|Hfb].
  - destruct (setNewActiveFile_same_name files this Hne Hin) as [E _].
    rewrite E.
    now rewrite setNewActiveFile_fixes_found.
  - rewrite (setNewActiveFile_falls_back files this Hfb).
    destruct (walk_left _ _) as [m|] eqn:W.
    + pose proof (walk_left_in _ _ _ W) as Hin.
      destruct (string_dec m "") as [->|Hne].
      * rewrite setNewActiveFile_fixes_walked; [reflexivity|now left|exact W].
      * now destruct (setNewActiveFile_same_name files
                        (set_activeFileName this m) Hne Hin) as [-> _].
    + pose proof (walk_left_none_no_files files _ Hpos W) as Hnil.
      rewrite setNewActiveFile_falls_back by now left.
      rewrite Hnil. reflexivity.
Qed.

Section UpdateCycle.
Import Lifecycle.

(** X11: an update for a changed project leaves the listener on the
    connected project and on no other: from the old project alone (or from
    none), the calls of [update] lead to the current project alone (or to
    none). An update for other changes makes no listener call. *)
Theorem update_listens_to_one_project (changedProperties : PropertyValues)
    (this : Host) :
  (has_project changedProperties = true ->
   listening_after (snd (update changedProperties this))
                   (only (get_project changedProperties))
   = only (_project this))
  /\ (has_project changedProperties = false ->
      snd (update changedProperties this) = []).
Proof.
  unfold update. split; intros ->.
  - destruct (get_project changedProperties) as [old|],
             (_project this) as [p|],
             (has_activeFileName changedProperties),
             (_editor this) as [e|];
      simpl; rewrite ?Nat.eqb_refl; reflexivity.
  - now destruct (has_activeFileName changedProperties), (_editor this).
Qed.

Lemma update_listens_to_one_project_witness :
  let old := {| project_id := 1; files := [] |} in
  let new := {| project_id := 2; files := [file "index.html"] |} in
  listening_after
    (snd (update {| has_project := true; get_project := Some old;
                    has_activeFileName := false |}
                 {| fields := new_tab_bar; _project := Some new;
                    _editor := None |}))
    [1%nat]
  = [2%nat].
Proof.
  intros old new.
  apply (proj1 (update_listens_to_one_project
                  {| has_project := true; get_project := Some old;
                     has_activeFileName := false |}
                  {| fields := new_tab_bar; _project := Some new;
                     _editor := None |})).
  reflexivity.
Defined.

(** X12: an update for a changed active name, with an editor bound and the
    name that of a visible file, gives the editor that name, keeps it as the
    active name, and stores an index at which a visible file has it. *)
Theorem update_gives_editor_the_active_name (changedProperties : PropertyValues)
    (this : Host) (e : PlaygroundFileEditor) :
  has_project changedProperties = false ->
  has_activeFileName changedProperties = true ->
  _editor this = Some e ->
  _activeFileName (fields this) <> "" ->
  In (_activeFileName (fields this))
     (map name (_visibleFiles (project_files_of this))) ->
  let this' := fst (update changedProperties this) in
  _editor this' = Some {| filename := Some (_activeFileName (fields this')) |}
  /\ _activeFileName (fields this') = _activeFileName (fields this)
  /\ exists f,
       item (_visibleFiles (project_files_of this'))
            (_activeFileIndex (fields this')) = Some f
       /\ name f = _activeFileName (fields this').
Proof.
  intros Hp Hn He Hne Hin. unfold update. rewrite Hp, Hn, He. simpl.
  destruct (setNewActiveFile_same_name (project_files_of this) (fields this)
              Hne Hin) as (-> & f & Hf & Hname & _).
  simpl. repeat split. exists f. split; assumption.
Qed.

Lemma update_gives_editor_the_active_name_witness :
  let this :=
    {| fields := active "b.js" 0;
       _project :=
         Some {| project_id := 1;
                 files := [file "index.html"; file "a.js"; file "b.js"] |};
       _editor := Some {| filename := Some "index.html" |} |} in
  let this' :=
    fst (update {| has_project := false; get_project := None;
                   has_activeFileName := true |} this) in
  _editor this' = Some {| filename := Some "b.js" |}
  /\ fields this' = active "b.js" 2.
Proof.
  intros this this'.
  destruct (update_gives_editor_the_active_name
              {| has_project := false; get_project := None;
                 has_activeFileName := true |}
              this {| filename := Some "index.html" |})
    as (E & _ & _).
  - reflexivity.
  - reflexivity.
  - reflexivity.
  - simpl. discriminate.
  - simpl. tauto.
  - split; [exact E|reflexivity].
Defined.

(** X13: the editor is given the active name before the recovery runs: in an
    update for a changed active name that takes the walk to the left, the
    editor gets the name as it was, and the tab bar goes on to the name of
    the file that the walk selects. *)
Theorem update_gives_editor_the_name_before_recovery
    (changedProperties : PropertyValues) (this : Host)
    (e : PlaygroundFileEditor) (i : Z) (f : PlaygroundFile) :
  has_project changedProperties = false ->
  has_activeFileName changedProperties = true ->
  _editor this = Some e ->
  falls_back (project_files_of this) (fields this) ->
  nearest_left (_visibleFiles (project_files_of this))
               (_activeFileIndex (fields this)) i f ->
  let this' := fst (update changedProperties this) in
  _editor this' = Some {| filename := Some (_activeFileName (fields this)) |}
  /\ _activeFileName (fields this') = name f.
Proof.
  intros Hp Hn He Hfb Hnear. unfold update. rewrite Hp, Hn, He. simpl.
  rewrite (setNewActiveFile_falls_back _ _ Hfb).
  rewrite (walk_left_nearest _ _ i f Hnear). split; reflexivity.
Qed.

(** The active name has been set, by [_onNewFile], to a name that no
    visible file has: the editor is given new.js, the tab bar falls back to
    b.js. *)
Lemma update_gives_editor_the_name_before_recovery_witness :
  let this :=
    {| fields := _onNewFile "new.js" (active "b.js" 1);
       _project :=
         Some {| project_id := 1; files := [file "index.html"; file "b.js"] |};
       _editor := Some {| filename := Some "b.js" |} |} in
  let this' :=
    fst (update {| has_project := false; get_project := None;
                   has_activeFileName := true |} this) in
  _editor this' = Some {| filename := Some "new.js" |}
  /\ _activeFileName (fields this') = "b.js".
Proof.
  intros this this'.
  apply (update_gives_editor_the_name_before_recovery
           {| has_project := false; get_project := None;
              has_activeFileName := true |}
           this {| filename := Some "b.js" |} 1 (file "b.js")).
  - reflexivity.
  - reflexivity.
  - reflexivity.
  - right. vm_compute. intuition discriminate.
  - apply nearest_left_last; [reflexivity|simpl; lia|vm_compute; discriminate].
Defined.

(** X14: an update that connects a project, with an editor bound and a
    stored index that is not negative, ends with the editor's file name
    equal to the active name, whatever the project's files are. *)
Theorem update_on_load_agrees_with_editor (changedProperties : PropertyValues)
    (this : Host) (p : PlaygroundProject) (e : PlaygroundFileEditor) :
  has_project changedProperties = true ->
  has_activeFileName changedProperties = true ->
  _project this = Some p -> _editor this = Some e ->
  0 <= _activeFileIndex (fields this) ->
  let this' := fst (update changedProperties this) in
  _editor this' = Some {| filename := Some (_activeFileName (fields this')) |}.
Proof.
  intros Hp Hn Hproj He Hpos. unfold update. rewrite Hp, Hn, Hproj.
  simpl. rewrite He. unfold project_files_of. simpl.
  destruct (handleFilesChanged_as_recovery (files p) true (fields this))
    as [n ->].
  rewrite recovery_name_settles; [reflexivity|exact Hpos].
Qed.

Lemma update_on_load_agrees_with_editor_witness :
  let this :=
    {| fields := new_tab_bar;
       _project :=
         Some {| project_id := 1;
                 files := [file "index.html"; selected_file "a.js"] |};
       _editor := Some {| filename := None |} |} in
  let this' :=
    fst (update {| has_project := true; get_project := None;
                   has_activeFileName := true |} this) in
  _editor this' = Some {| filename := Some "a.js" |}
  /\ fields this' = active "a.js" 1.
Proof.
  intros this this'. split; [|reflexivity].
  apply (update_on_load_agrees_with_editor
           {| has_project := true; get_project := None;
              has_activeFileName := true |}
           this
           {| project_id := 1;
              files := [file "index.html"; selected_file "a.js"] |}
           {| filename := None |}); reflexivity.
Defined.

End UpdateCycle.

(** ** The variant with drop zones *)

Section DropZoneVariant.
Import DropZones.

Lemma Element_eqb_eq (a b : Element) : Element_eqb a b = true <-> a = b.
Proof.
  destruct a, b; simpl; rewrite ?Nat.eqb_eq;
    split; intros H; try discriminate; congruence.
Qed.

Lemma Element_eqb_refl (a : Element) : Element_eqb a a = true.
Proof. now apply Element_eqb_eq. Qed.

Lemma same_element_some (a b : Element) :
  same_element (Some a) (Some b) = true <-> a = b.
Proof. apply Element_eqb_eq. Qed.

Lemma contains_add (e x : Element) (this : DropZones.PlaygroundTabBar) :
  classList_contains (classList_add e this) x
  = Element_eqb x e || classList_contains this x.
Proof.
  unfold classList_contains at 1, classList_add. simpl.
  destruct (classList_contains this e) eqn:He; simpl.
  - fold (classList_contains this x).
    destruct (Element_eqb x e) eqn:Hx; [|reflexivity].
    apply Element_eqb_eq in Hx as ->. now rewrite He.
  - reflexivity.
Qed.

Lemma contains_remove (e x : Element) (this : DropZones.PlaygroundTabBar) :
  classList_contains (classList_remove e this) x
  = negb (Element_eqb e x) && classList_contains this x.
Proof.
  unfold classList_contains, classList_remove. simpl.
  induction (active_class this) as [|y l IH]; simpl.
  - now rewrite andb_false_r.
  - destruct (Element_eqb e y) eqn:Hy; simpl.
    + rewrite IH. apply Element_eqb_eq in Hy as <-.
      destruct (Element_eqb x e) eqn:Hx; [|reflexivity].
      apply Element_eqb_eq in Hx as ->. now rewrite Element_eqb_refl.
    + rewrite IH. destruct (Element_eqb x y) eqn:Hx; [|reflexivity].
      apply Element_eqb_eq in Hx as ->. now rewrite Hy.
Qed.

Lemma contains_remove_opt_le (e : option Element) (x : Element)
    (this : DropZones.PlaygroundTabBar) :
  classList_contains (classList_remove_opt e this) x = true ->
  classList_contains this x = true.
Proof.
  destruct e as [e|]; simpl; [|auto].
  rewrite contains_remove. now intros [_ H]%andb_prop.
Qed.

Lemma contains_increment (x : Element) (this : DropZones.PlaygroundTabBar) :
  classList_contains (_incrementDragoverCount this) x
  = classList_contains this x.
Proof. reflexivity. Qed.

Lemma childDragOver_classes (this : DropZones.PlaygroundTabBar) :
  active_class (_childDragOver this) = active_class this
  /\ _dragged (_childDragOver this) = _dragged this.
Proof.
  unfold _childDragOver. destruct (_dragged this) eqn:E; simpl; rewrite ?E; auto.
Qed.

Lemma remove_opt_dragged (e : option Element)
    (this : DropZones.PlaygroundTabBar) :
  _dragged (classList_remove_opt e this) = _dragged this
  /\ _dragoverCount (classList_remove_opt e this) = _dragoverCount this.
Proof. now destruct e. Qed.

Lemma targetTabDragOver_dragged (tabs : nat) (event : DropZones.DragEvent)
    (this : DropZones.PlaygroundTabBar) :
  _dragged (DropZones._targetTabDragOver tabs event this) = _dragged this.
Proof.
  unfold DropZones._targetTabDragOver.
  destruct (same_element _ _); [reflexivity|].
  destruct (PrimFloat.ltb _ _); simpl.
  - destruct (previousElementSibling (target event)) as [zone|];
      [destruct (negb _)|]; simpl; apply remove_opt_dragged.
  - destruct (nextElementSibling tabs (target event)) as [zone|];
      [destruct (negb _)|]; simpl; apply remove_opt_dragged.
Qed.

Lemma targetTabDragLeave_dragged (tabs : nat)
    (this : DropZones.PlaygroundTabBar) :
  _dragged (DropZones._targetTabDragLeave tabs this) = _dragged this.
Proof.
  unfold DropZones._targetTabDragLeave.
  destruct (_ =? 0); [|reflexivity].
  now destruct (remove_opt_dragged
                  (option_map drop_zone
                     (querySelector_active_zone tabs
                        (_decrementDragoverCount this)))
                  (_decrementDragoverCount this)) as [-> _].
Qed.

Lemma childDragLeave_dragged (this : DropZones.PlaygroundTabBar) :
  _dragged (_childDragLeave this) = _dragged this.
Proof.
  unfold _childDragLeave. destruct (_dragged this) eqn:E; simpl; now rewrite ?E.
Qed.

(** What one dispatched event does to [_dragged]. *)
Lemma dispatch_dragged (tabs : nat) (type : DragEventType)
    (event : DropZones.DragEvent) (this : DropZones.PlaygroundTabBar) :
  _dragged (dispatch tabs type event this) = _dragged this
  \/ _dragged (dispatch tabs type event this) = Some (target event).
Proof.
  assert (Hover : forall b : bool,
             _dragged (DropZones._targetTabDragOver tabs event
                         (if b then _childDragOver this else this))
             = _dragged this).
  { intros b. rewrite targetTabDragOver_dragged.
    destruct b; [apply childDragOver_classes|reflexivity]. }
  assert (Hleave : forall b : bool,
             _dragged (DropZones._targetTabDragLeave tabs
                         (if b then _childDragLeave this else this))
             = _dragged this).
  { intros b. rewrite targetTabDragLeave_dragged.
    destruct b; [apply childDragLeave_dragged|reflexivity]. }
  unfold dispatch.
  destruct (target event) eqn:Et, type; simpl; auto;
    unfold _dropZoneDragOver; rewrite ?Et;
    try (destruct (_ || _); simpl; auto);
    first [ right; reflexivity
          | left; exact (Hover true) | left; exact (Hover false)
          | left; exact (Hleave true) | left; exact (Hleave false) ].
Qed.

(** X15: in the variant with drop zones, no drag event clears [_dragged]:
    once an element has been dragged, [_dragged] holds an element after
    any further events, [dragend] included, whose listener does not call
    [_originTabDragEnd]. *)
Theorem dragged_is_never_cleared (tabs : nat)
    (events : list (DragEventType * DropZones.DragEvent)) :
  forall this,
    _dragged this <> None ->
    _dragged (dispatch_all tabs events this) <> None.
Proof.
  induction events as [|[type event] events IH]; intros this H; simpl;
    [exact H|].
  apply IH. destruct (dispatch_dragged tabs type event this) as [-> | ->];
    [exact H|discriminate].
Qed.

Lemma dragged_is_never_cleared_witness :
  _dragged
    (dispatch_all 3 [(dragover, at_tab 2); (dragleave, at_tab 2);
                     (dragend, at_tab 1)]
                  (_originTabDragStart (at_tab 1) DropZones.new_tab_bar))
  <> None.
Proof.
  apply (dragged_is_never_cleared 3
           [(dragover, at_tab 2); (dragleave, at_tab 2); (dragend, at_tab 1)]
           (_originTabDragStart (at_tab 1) DropZones.new_tab_bar)).
  discriminate.
Defined.

Lemma targetTabDragOver_zone (tabs : nat) (event : DropZones.DragEvent)
    (this : DropZones.PlaygroundTabBar) (d z : nat) :
  _dragged this = Some (tab d) -> (d < tabs)%nat -> z = d \/ S z = d ->
  classList_contains (DropZones._targetTabDragOver tabs event this)
                     (drop_zone z) = true ->
  classList_contains this (drop_zone z) = true.
Proof.
  intros Hd Hlt Hz. unfold DropZones._targetTabDragOver. rewrite Hd.
  destruct (same_element (Some (target event)) (Some (tab d))) eqn:Hself;
    [auto|].
  assert (Hne : target event <> tab d).
  { intros E. rewrite E in Hself. simpl in Hself.
    now rewrite Nat.eqb_refl in Hself. }
  destruct (PrimFloat.ltb _ _); rewrite contains_increment.
  - destruct (previousElementSibling (target event)) as [zone|] eqn:Hprev;
      [|apply contains_remove_opt_le].
    destruct (same_element (previousElementSibling zone) (Some (tab d)))
      eqn:Hadj; simpl; [apply contains_remove_opt_le|].
    rewrite contains_add. intros [Hx|Hx]%orb_prop;
      [|now apply contains_remove_opt_le in Hx].
    exfalso. apply Element_eqb_eq in Hx as <-.
    destruct (target event) as [[|i]| | | |]; simpl in Hprev;
      try discriminate.
    injection Hprev as Hi. subst i. simpl in Hadj.
    destruct Hz as [->|<-]; [now rewrite Nat.eqb_refl in Hadj|].
    now apply Hne.
  - destruct (nextElementSibling tabs (target event)) as [zone|] eqn:Hnext;
      [|apply contains_remove_opt_le].
    destruct (same_element (nextElementSibling tabs zone) (Some (tab d)))
      eqn:Hadj; simpl; [apply contains_remove_opt_le|].
    rewrite contains_add. intros [Hx|Hx]%orb_prop;
      [|now apply contains_remove_opt_le in Hx].
    exfalso. apply Element_eqb_eq in Hx as <-.
    destruct (target event) as [i|i| | |]; simpl in Hnext;
      try discriminate; [|destruct (S i <? tabs)%nat; discriminate].
    injection Hnext as Hi. subst i. simpl in Hadj.
    destruct Hz as [->|<-]; [now apply Hne|].
    destruct (Nat.ltb_spec (S z) tabs); simpl in Hadj;
      [now rewrite Nat.eqb_refl in Hadj|lia].
Qed.

Lemma dispatch_dragover_zone (tabs : nat)
    (event : DropZones.DragEvent) (this : DropZones.PlaygroundTabBar)
    (d z : nat) :
  _dragged this = Some (tab d) -> (d < tabs)%nat -> z = d \/ S z = d ->
  classList_contains (dispatch tabs dragover event this) (drop_zone z) = true ->
  classList_contains this (drop_zone z) = true.
Proof.
  intros Hd Hlt Hz. unfold dispatch.
  assert (Htab : forall b : bool,
             classList_contains
               (DropZones._targetTabDragOver tabs event
                  (if b then _childDragOver this else this)) (drop_zone z)
             = true ->
             classList_contains this (drop_zone z) = true).
  { intros [|] H; [|now apply (targetTabDragOver_zone tabs event this d z)].
    destruct (childDragOver_classes this) as [Ec Ed].
    apply (targetTabDragOver_zone tabs event _ d z) in H;
      [|now rewrite Ed|exact Hlt|exact Hz].
    unfold classList_contains in *. now rewrite Ec in H. }
  destruct (target event) as [i|i|i|i|i] eqn:Et; simpl;
    try (exact (Htab true)); try (exact (Htab false)).
  unfold _dropZoneDragOver. rewrite Et, Hd.
  cbn [previousElementSibling nextElementSibling same_element Element_eqb].
  destruct (Nat.eqb_spec i d) as [->|Hid]; cbn [orb]; [auto|].
  destruct (Nat.ltb_spec (S i) tabs) as [Hi|Hi];
    cbn [same_element Element_eqb].
  - destruct (Nat.eqb_spec (S i) d) as [<-|Hsd]; [auto|].
    rewrite contains_add. intros [Hx|Hx]%orb_prop; [|exact Hx].
    apply Element_eqb_eq in Hx. injection Hx as ->. lia.
  - rewrite contains_add. intros [Hx|Hx]%orb_prop; [|exact Hx].
    apply Element_eqb_eq in Hx. injection Hx as ->. lia.
Qed.

(** X16: while the tab at [d] is the dragged element, no drag-over, on
    whatever element, gives the class [active] to a drop zone next to that
    tab: the zone after it and the zone before it, when they are not
    active, are not active afterwards. *)
Theorem zones_next_to_dragged_tab_not_activated (tabs : nat)
    (event : DropZones.DragEvent) (this : DropZones.PlaygroundTabBar)
    (d z : nat) :
  _dragged this = Some (tab d) -> (d < tabs)%nat -> z = d \/ S z = d ->
  classList_contains this (drop_zone z) = false ->
  classList_contains (dispatch tabs dragover event this) (drop_zone z) = false.
Proof.
  intros Hd Hlt Hz Hbefore.
  destruct (classList_contains (dispatch tabs dragover event this)
              (drop_zone z)) eqn:Hafter; [|reflexivity].
  rewrite (dispatch_dragover_zone tabs event this d z Hd Hlt Hz Hafter)
    in Hbefore.
  discriminate.
Qed.

(** The tab at 1 is dragged over the left half of the tab at 2, and over the
    drop zone before itself: the zones 0 and 1 stay as they are, while over
    the right half of the tab at 2 the zone 2 becomes active. *)
Lemma zones_next_to_dragged_tab_not_activated_witness :
  let this := _originTabDragStart (at_tab 1) DropZones.new_tab_bar in
  let right_of_2 :=
    {| target := tab 2; clientX := 90; rect_left := 0; rect_width := 100 |} in
  classList_contains (dispatch 3 dragover (at_tab 2) this) (drop_zone 1) = false
  /\ classList_contains (dispatch 3 dragover (at_zone 0) this) (drop_zone 0)
     = false
  /\ classList_contains (dispatch 3 dragover right_of_2 this) (drop_zone 2)
     = true.
Proof.
  intros this right_of_2. split; [|split].
  - apply (zones_next_to_dragged_tab_not_activated 3 (at_tab 2) this 1 1);
      [reflexivity|lia|now left|reflexivity].
  - apply (zones_next_to_dragged_tab_not_activated 3 (at_zone 0) this 1 0);
      [reflexivity|lia|now right|reflexivity].
  - reflexivity.
Defined.

(** X17: a drag of the tab at [d] over the drop zone after the tab at [z],
    not next to the dragged tab, marks the zone, and the drop on it then
    sends one [moveFileAfter] with the names of the two tabs' files and
    takes the mark off again. *)
Theorem zone_drop_moves_after_its_tab (visible : list PlaygroundFile)
    (event : DropZones.DragEvent) (this : DropZones.PlaygroundTabBar)
    (d z : nat) (fd fz : PlaygroundFile) :
  target event = drop_zone z -> _dragged this = Some (tab d) ->
  nth_error visible d = Some fd -> nth_error visible z = Some fz ->
  z <> d -> S z <> d ->
  let this1 := _dropZoneDragOver (List.length visible) event this in
  classList_contains this1 (drop_zone z) = true
  /\ exists this2,
       _dropZoneDrop visible true event this1
       = returns (this2,
                  [DropZones.moveFileAfter (Some (name fd)) (Some (name fz))])
       /\ classList_contains this2 (drop_zone z) = false
       /\ _dragged this2 = Some (tab d).
Proof.
  intros Ht Hd Hfd Hfz Hzd Hszd this1.
  assert (E : this1 = classList_add (drop_zone z) this).
  { subst this1. unfold _dropZoneDragOver. rewrite Ht, Hd.
    cbn [previousElementSibling nextElementSibling same_element Element_eqb].
    destruct (Nat.eqb_spec z d); [contradiction|].
    destruct (S z <? List.length visible)%nat;
      cbn [same_element Element_eqb orb]; [|reflexivity].
    now destruct (Nat.eqb_spec (S z) d). }
  rewrite E. split.
  - rewrite contains_add, Element_eqb_refl. reflexivity.
  - unfold _dropZoneDrop, drop_on_zone. rewrite Ht.
    cbn [classList_add _dragged previousElementSibling]. rewrite Hd.
    eexists. split; [|split].
    + cbn [dataset_filename]. rewrite Hfd, Hfz. reflexivity.
    + rewrite contains_remove, Element_eqb_refl. reflexivity.
    + exact Hd.
Qed.

(** c.js, dragged from index 3, is dropped on the zone after index.html. *)
Lemma zone_drop_moves_after_its_tab_witness :
  let visible :=
    [file "index.html"; file "a.js"; file "b.js"; file "c.js"] in
  let this := _originTabDragStart (at_tab 3) DropZones.new_tab_bar in
  let this1 := _dropZoneDragOver 4 (at_zone 0) this in
  classList_contains this1 (drop_zone 0) = true
  /\ exists this2,
       _dropZoneDrop visible true (at_zone 0) this1
       = returns (this2,
                  [DropZones.moveFileAfter (Some "c.js") (Some "index.html")])
       /\ classList_contains this2 (drop_zone 0) = false
       /\ _dragged this2 = Some (tab 3).
Proof.
  intros visible this.
  apply (zone_drop_moves_after_its_tab visible (at_zone 0) this 3 0
           (file "c.js") (file "index.html"));
    [reflexivity|reflexivity|reflexivity|reflexivity|lia|lia].
Defined.

Lemma first_active_zone_found (this : DropZones.PlaygroundTabBar) (z : nat) :
  classList_contains this (drop_zone z) = true ->
  forall zones from,
    (from <= z < from + zones)%nat ->
    exists z', first_active_zone this zones from = Some z'.
Proof.
  intros Hz. induction zones as [|zones IH]; intros from Hr; [lia|].
  simpl. destruct (classList_contains this (drop_zone from)) eqn:Hf;
    [now exists from|].
  apply IH. destruct (Nat.eq_dec from z) as [->|]; [congruence|lia].
Qed.

(** X18: before anything has been dragged from the tab bar, a drag-over
    marks every drop zone but the last, and a drop, on the zone or on a
    tab, then fails with a [TypeError], reading the file name of the
    dragged element, [null]. *)
Theorem drop_before_any_drag_throws (visible : list PlaygroundFile)
    (has_project : bool) (event : DropZones.DragEvent)
    (this : DropZones.PlaygroundTabBar) (z : nat) :
  _dragged this = None -> target event = drop_zone z ->
  (S z < List.length visible)%nat ->
  let this1 := _dropZoneDragOver (List.length visible) event this in
  classList_contains this1 (drop_zone z) = true
  /\ _dropZoneDrop visible has_project event this1 = TypeError
  /\ DropZones._targetTabDrop visible has_project this1 = TypeError.
Proof.
  intros Hd Ht Hz this1.
  assert (E : this1 = classList_add (drop_zone z) this).
  { subst this1. unfold _dropZoneDragOver. rewrite Ht, Hd.
    cbn [previousElementSibling nextElementSibling same_element orb].
    now apply Nat.ltb_lt in Hz as ->. }
  assert (Hc : classList_contains this1 (drop_zone z) = true).
  { rewrite E, contains_add, Element_eqb_refl. reflexivity. }
  assert (Hd1 : _dragged this1 = None) by now rewrite E.
  split; [exact Hc|split].
  - unfold _dropZoneDrop, drop_on_zone. now rewrite Hd1.
  - unfold DropZones._targetTabDrop, querySelector_active_zone.
    destruct (first_active_zone_found this1 z Hc (List.length visible) 0)
      as [z' ->]; [lia|].
    unfold drop_on_zone. now rewrite Hd1.
Qed.

Lemma drop_before_any_drag_throws_witness :
  let visible := [file "index.html"; file "a.js"; file "b.js"] in
  let this1 := _dropZoneDragOver 3 (at_zone 0) DropZones.new_tab_bar in
  classList_contains this1 (drop_zone 0) = true
  /\ _dropZoneDrop visible true (at_zone 0) this1 = TypeError
  /\ DropZones._targetTabDrop visible true this1 = TypeError.
Proof.
  intros visible this1.
  apply (drop_before_any_drag_throws visible true (at_zone 0)
           DropZones.new_tab_bar 0); [reflexivity|reflexivity|simpl; lia].
Defined.

Lemma targetTabDragOver_count (tabs : nat) (event : DropZones.DragEvent)
    (this : DropZones.PlaygroundTabBar) :
  _dragoverCount (DropZones._targetTabDragOver tabs event this)
  = if same_element (Some (target event)) (_dragged this)
    then _dragoverCount this else _dragoverCount this + 1.
Proof.
  unfold DropZones._targetTabDragOver.
  destruct (same_element _ _); [reflexivity|].
  destruct (PrimFloat.ltb _ _); simpl.
  - destruct (previousElementSibling (target event)) as [zone|];
      [destruct (negb _)|]; simpl;
      now destruct (remove_opt_dragged
                      (nextElementSibling tabs (target event)) this)
        as [_ ->].
  - destruct (nextElementSibling tabs (target event)) as [zone|];
      [destruct (negb _)|]; simpl;
      now destruct (remove_opt_dragged
                      (previousElementSibling (target event)) this)
        as [_ ->].
Qed.

Lemma targetTabDragLeave_count (tabs : nat)
    (this : DropZones.PlaygroundTabBar) :
  _dragoverCount (DropZones._targetTabDragLeave tabs this)
  = _dragoverCount this - 1.
Proof.
  unfold DropZones._targetTabDragLeave.
  destruct (_ =? 0); [|reflexivity].
  now destruct (remove_opt_dragged
                  (option_map drop_zone
                     (querySelector_active_zone tabs
                        (_decrementDragoverCount this)))
                  (_decrementDragoverCount this)) as [_ ->].
Qed.

(** X19: a drag-over of a tab, or of an element inside it, and the
    drag-leave of the same element after it leave [_dragoverCount] as it
    was, unless the element is the dragged one: its drag-over returns
    before the count is raised, its drag-leave lowers the count all the
    same, and the count ends one lower. *)
Theorem dragover_dragleave_count (tabs : nat)
    (over leave : DropZones.DragEvent) (this : DropZones.PlaygroundTabBar) :
  target leave = target over ->
  (forall i, target over <> drop_zone i) ->
  _dragoverCount
    (dispatch tabs dragleave leave (dispatch tabs dragover over this))
  = _dragoverCount this
    - (if same_element (Some (target over)) (_dragged this) then 1 else 0).
Proof.
  intros Ht Hzone.
  assert (E : forall type event s,
             target event = target over ->
             dispatch tabs type event s
             = match type with
               | dragstart => _originTabDragStart event s
               | dragend => dragend_listener s
               | dragover =>
                   DropZones._targetTabDragOver tabs event
                     (if in_button (target over) then _childDragOver s else s)
               | dragleave =>
                   DropZones._targetTabDragLeave tabs
                     (if in_button (target over) then _childDragLeave s else s)
               end).
  { intros type event s Hev. unfold dispatch. rewrite Hev.
    destruct (target over) as [i|i|i|i|i]; try reflexivity.
    now destruct (Hzone i). }
  rewrite (E dragleave leave _ Ht), (E dragover over this eq_refl).
  rewrite targetTabDragLeave_count.
  set (this1 := DropZones._targetTabDragOver tabs over
                  (if in_button (target over) then _childDragOver this
                   else this)).
  assert (Hd1 : _dragged this1 = _dragged this).
  { subst this1. rewrite targetTabDragOver_dragged.
    destruct (in_button _); [apply childDragOver_classes|reflexivity]. }
  assert (Hc1 : _dragoverCount this1
                = (if same_element (Some (target over)) (_dragged this)
                   then 0 else 1)
                  + _dragoverCount
                      (if in_button (target over) then _childDragOver this
                       else this)).
  { subst this1. rewrite targetTabDragOver_count.
    replace (_dragged (if in_button (target over) then _childDragOver this
                       else this)) with (_dragged this)
      by (destruct (in_button _);
          [symmetry; apply childDragOver_classes|reflexivity]).
    destruct (same_element _ _); lia. }
  destruct (in_button (target over)).
  - unfold _childDragLeave. rewrite Hd1. unfold _childDragOver in Hc1.
    destruct (_dragged this) as [e|] eqn:Ed;
      cbn [same_element _incrementDragoverCount _decrementDragoverCount
           _dragoverCount] in Hc1 |- *;
      [destruct (Element_eqb (target over) e); lia|lia].
  - destruct (same_element _ _); lia.
Qed.

(** Over the dragged tab and away from it again: the count goes from 0 to
    -1; over another tab and away: it is 0 again. *)
Lemma dragover_dragleave_count_witness :
  let this := _originTabDragStart (at_tab 1) DropZones.new_tab_bar in
  _dragoverCount (dispatch 3 dragleave (at_tab 1)
                    (dispatch 3 dragover (at_tab 1) this)) = -1
  /\ _dragoverCount (dispatch 3 dragleave (at_tab 2)
                       (dispatch 3 dragover (at_tab 2) this)) = 0.
Proof.
  intros this. split.
  - apply (dragover_dragleave_count 3 (at_tab 1) (at_tab 1) this);
      [reflexivity|discriminate].
  - apply (dragover_dragleave_count 3 (at_tab 2) (at_tab 2) this);
      [reflexivity|discriminate].
Defined.

End DropZoneVariant.
